(** * The chat client of nydasbot (src/nydasbot/src/Chatbot.js)

    A shallow embedding of the React component [ChatApp]: its three pieces of
    component state ([input], [messages], the [websocket] ref), its two event
    handlers ([websocket.current.onmessage] and [sendMessage]), the markup
    builder [renderMessageAsMarkdown] and the list expression of the render
    function.  The parts of the JavaScript platform the handlers call
    ([String.prototype.trim], [startsWith], [substring], [JSON.stringify],
    [JSON.parse], property access, truthiness, template literals and
    [WebSocket.prototype.send]) are modelled after ECMA-262 and the WHATWG
    WebSockets standard; the two npm packages [marked] and [dompurify] and the
    floating point formatting of numbers stay parameters. *)

From Stdlib Require Import Bool Ascii String List NArith ZArith Lia.
Import ListNotations.

(** ** JavaScript strings *)

(** A JavaScript string is a finite sequence of UTF-16 code units. *)
Definition code_unit := N.
Definition jsstring := list code_unit.

(** The code unit of an ASCII character, and the string of an ASCII literal. *)
Definition ch (a : ascii) : code_unit := N_of_ascii a.
Definition str (s : string) : jsstring := map N_of_ascii (list_ascii_of_string s).

(** U+0022 and U+005C, which the literals of this file do not spell out. *)
Definition QUOTATION_MARK : code_unit := 34%N.
Definition REVERSE_SOLIDUS : code_unit := 92%N.

(** A literal in which the apostrophe stands for U+0022, to write JSON texts:
    [qstr "{'answer':'hi'}"] is the ten code units of the text with double
    quotes. *)
Definition qstr (s : string) : jsstring :=
  map (fun c => if N.eqb c (ch "'") then QUOTATION_MARK else c) (str s).

Definition jsstring_eqb (a b : jsstring) : bool :=
  if list_eq_dec N.eq_dec a b then true else false.

(** ECMA-262 WhiteSpace and LineTerminator, the code points that
    [String.prototype.trim] strips: TAB, VT, FF, SP, NBSP, ZWNBSP, the
    Space_Separator category, and LF, CR, LS, PS. *)
Definition is_whitespace (c : code_unit) : bool :=
  ((9 <=? c) && (c <=? 13) || (c =? 32) || (c =? 160) || (c =? 5760)
   || (8192 <=? c) && (c <=? 8202) || (c =? 8232) || (c =? 8233)
   || (c =? 8239) || (c =? 8287) || (c =? 12288) || (c =? 65279))%N.

Fixpoint trimStart (s : jsstring) : jsstring :=
  match s with
  | c :: rest => if is_whitespace c then trimStart rest else s
  | [] => []
  end.

Definition trimEnd (s : jsstring) : jsstring := rev (trimStart (rev s)).

(** [String.prototype.trim]. *)
Definition trim (s : jsstring) : jsstring := trimEnd (trimStart s).

(** [String.prototype.startsWith] (search position 0). *)
Fixpoint startsWith (s prefix : jsstring) {struct prefix} : bool :=
  match prefix, s with
  | [], _ => true
  | p :: prefix', c :: s' => (c =? p)%N && startsWith s' prefix'
  | _ :: _, [] => false
  end.

(** [String.prototype.substring] with one argument: the code units from
    index [start] on; the empty string when [start] is past the end. *)
Definition substring (s : jsstring) (start : nat) : jsstring := skipn start s.

(** ToBoolean of a string: the empty string is the only falsy one. *)
Definition truthy_string (s : jsstring) : bool :=
  match s with [] => false | _ :: _ => true end.

(** ** JSON.stringify of [{ input }] *)

Definition is_high_surrogate (c : code_unit) : bool := ((55296 <=? c) && (c <=? 56319))%N.
Definition is_low_surrogate (c : code_unit) : bool := ((56320 <=? c) && (c <=? 57343))%N.

Definition hex_digit (d : N) : code_unit :=
  (if d <? 10 then 48 + d else 87 + d)%N.

(** UnicodeEscape: a backslash, [u] and four lowercase hexadecimal digits. *)
Definition UnicodeEscape (c : code_unit) : jsstring :=
  [REVERSE_SOLIDUS; ch "u";
   hex_digit (c / 4096 mod 16); hex_digit (c / 256 mod 16);
   hex_digit (c / 16 mod 16); hex_digit (c mod 16)]%N.

(** One code unit that is not part of a surrogate pair, as QuoteJSONString
    writes it. *)
Definition quote_code_unit (c : code_unit) : jsstring :=
  if (c =? 8)%N then [REVERSE_SOLIDUS; ch "b"]
  else if (c =? 9)%N then [REVERSE_SOLIDUS; ch "t"]
  else if (c =? 10)%N then [REVERSE_SOLIDUS; ch "n"]
  else if (c =? 12)%N then [REVERSE_SOLIDUS; ch "f"]
  else if (c =? 13)%N then [REVERSE_SOLIDUS; ch "r"]
  else if (c =? QUOTATION_MARK)%N then [REVERSE_SOLIDUS; QUOTATION_MARK]
  else if (c =? REVERSE_SOLIDUS)%N then [REVERSE_SOLIDUS; REVERSE_SOLIDUS]
  else if (c <? 32)%N || is_high_surrogate c || is_low_surrogate c then UnicodeEscape c
  else [c].

(** The code points of the string one after the other: a high surrogate
    followed by a low one is a pair and is copied; every other unit goes
    through [quote_code_unit]. *)
Fixpoint quote_code_points (s : jsstring) : jsstring :=
  match s with
  | [] => []
  | c :: rest =>
      match rest with
      | d :: rest' =>
          if is_high_surrogate c && is_low_surrogate d
          then c :: d :: quote_code_points rest'
          else quote_code_unit c ++ quote_code_points rest
      | [] => quote_code_unit c
      end
  end.

(** QuoteJSONString (ECMA-262 25.5.2.3). *)
Definition QuoteJSONString (s : jsstring) : jsstring :=
  QUOTATION_MARK :: quote_code_points s ++ [QUOTATION_MARK].

(** [JSON.stringify({ input })] for a string [input]: the object has the one
    property [input]. *)
Definition JSON_stringify_input (input : jsstring) : jsstring :=
  str "{" ++ QuoteJSONString (str "input") ++ str ":" ++ QuoteJSONString input ++ str "}".

(** ** Completions *)

(** The exceptions the handlers can raise. *)
Inductive JSError := SyntaxError | TypeError | InvalidStateError.

(** How the evaluation of an expression or a call ends. *)
Inductive completion (A : Type) : Type :=
| Normal (a : A)
| Throw (e : JSError).
Arguments Normal {A} a.
Arguments Throw {A} e.

(** ** JSON.parse *)

(** A JSON number literal, kept as the decimal it denotes:
    (-1)^[negative] * [digits] * 10^[exponent]. The Number value is the
    double nearest to it. *)
Record JSONNumber := { negative : bool; digits : N; exponent : Z }.

(** The values [JSON.parse] builds. *)
#[warnings="-register-all"]
Inductive JSValue :=
| JNull
| JBool (b : bool)
| JNumber (n : JSONNumber)
| JString (s : jsstring)
| JArray (elements : list JSValue)
| JObject (properties : list (jsstring * JSValue)).

(** What a parsing function returns: the value read and the text left, a
    syntax error, or (for the functions that take fuel) not enough fuel. *)
Inductive parsed (A : Type) : Type :=
| Parsed (a : A) (rest : jsstring)
| Malformed
| OutOfFuel.
Arguments Parsed {A} a rest.
Arguments Malformed {A}.
Arguments OutOfFuel {A}.

Definition parsed_map {A B} (f : A -> B) (p : parsed A) : parsed B :=
  match p with
  | Parsed a rest => Parsed (f a) rest
  | Malformed => Malformed
  | OutOfFuel => OutOfFuel
  end.

(** JSONWhiteSpace: TAB, LF, CR, SP. *)
Definition is_json_whitespace (c : code_unit) : bool :=
  ((c =? 9) || (c =? 10) || (c =? 13) || (c =? 32))%N.

Fixpoint skip_ws (s : jsstring) : jsstring :=
  match s with
  | c :: rest => if is_json_whitespace c then skip_ws rest else s
  | [] => []
  end.

Definition is_digit (c : code_unit) : bool := ((48 <=? c) && (c <=? 57))%N.

(** A run of decimal digits: the number read after [acc], how many digits
    it had, and the text left. *)
Fixpoint read_digits (s : jsstring) (acc : N) (count : nat) : N * nat * jsstring :=
  match s with
  | c :: rest =>
      if is_digit c then read_digits rest (10 * acc + (c - 48))%N (S count)
      else (acc, count, s)
  | [] => (acc, count, [])
  end.

(** JSONFraction, optional: the digits after the point extend [int]. *)
Definition parse_fraction (int : N) (s : jsstring) : parsed (N * nat) :=
  match s with
  | c :: rest =>
      if (c =? ch ".")%N then
        match read_digits rest int 0 with
        | (_, O, _) => Malformed
        | (mantissa, count, rest') => Parsed (mantissa, count) rest'
        end
      else Parsed (int, O) s
  | [] => Parsed (int, O) []
  end.

(** ExponentPart, optional. *)
Definition parse_exponent (s : jsstring) : parsed Z :=
  match s with
  | c :: rest =>
      if ((c =? ch "e") || (c =? ch "E"))%N then
        let '(minus, rest1) :=
          match rest with
          | sign :: rest' =>
              if (sign =? ch "-")%N then (true, rest')
              else if (sign =? ch "+")%N then (false, rest')
              else (false, rest)
          | [] => (false, rest)
          end in
        match read_digits rest1 0 0 with
        | (_, O, _) => Malformed
        | (e, _, rest2) => Parsed (if minus then (- Z.of_N e)%Z else Z.of_N e) rest2
        end
      else Parsed 0%Z s
  | [] => Parsed 0%Z []
  end.

(** JSONNumber: an optional minus, [0] or a run of digits that does not
    start with [0], then the optional fraction and exponent. *)
Definition parse_number (s : jsstring) : parsed JSONNumber :=
  let '(neg, s1) :=
    match s with
    | c :: rest => if (c =? ch "-")%N then (true, rest) else (false, s)
    | [] => (false, s)
    end in
  match s1 with
  | c :: rest1 =>
      if is_digit c then
        let '(int, s2) :=
          if (c =? ch "0")%N then (0%N, rest1)
          else let '(v, _, r) := read_digits s1 0 0 in (v, r) in
        match parse_fraction int s2 with
        | Parsed (mantissa, count) s3 =>
            match parse_exponent s3 with
            | Parsed e s4 =>
                Parsed {| negative := neg; digits := mantissa;
                          exponent := (e - Z.of_nat count)%Z |} s4
            | Malformed => Malformed
            | OutOfFuel => OutOfFuel
            end
        | Malformed => Malformed
        | OutOfFuel => OutOfFuel
        end
      else Malformed
  | [] => Malformed
  end.

Definition hex_value (c : code_unit) : option N :=
  if is_digit c then Some (c - 48)%N
  else if ((97 <=? c) && (c <=? 102))%N then Some (c - 87)%N
  else if ((65 <=? c) && (c <=? 70))%N then Some (c - 55)%N
  else None.

Definition hex4 (a b c d : code_unit) : option code_unit :=
  match hex_value a, hex_value b, hex_value c, hex_value d with
  | Some x, Some y, Some z, Some w => Some (4096 * x + 256 * y + 16 * z + w)%N
  | _, _, _, _ => None
  end.

(** The character a single-character JSON escape stands for. *)
Definition unescape (c : code_unit) : option code_unit :=
  if (c =? QUOTATION_MARK)%N then Some QUOTATION_MARK
  else if (c =? REVERSE_SOLIDUS)%N then Some REVERSE_SOLIDUS
  else if (c =? ch "/")%N then Some (ch "/")
  else if (c =? ch "b")%N then Some 8%N
  else if (c =? ch "f")%N then Some 12%N
  else if (c =? ch "n")%N then Some 10%N
  else if (c =? ch "r")%N then Some 13%N
  else if (c =? ch "t")%N then Some 9%N
  else None.

(** The characters of a JSON string after its opening quote, up to and
    including the closing one. Control characters below U+0020 are refused. *)
Fixpoint parse_string_chars (s : jsstring) : parsed jsstring :=
  match s with
  | [] => Malformed
  | c :: rest =>
      if (c =? QUOTATION_MARK)%N then Parsed [] rest
      else if (c =? REVERSE_SOLIDUS)%N then
        match rest with
        | e :: rest' =>
            if (e =? ch "u")%N then
              match rest' with
              | h1 :: h2 :: h3 :: h4 :: rest'' =>
                  match hex4 h1 h2 h3 h4 with
                  | Some u => parsed_map (cons u) (parse_string_chars rest'')
                  | None => Malformed
                  end
              | _ => Malformed
              end
            else
              match unescape e with
              | Some u => parsed_map (cons u) (parse_string_chars rest')
              | None => Malformed
              end
        | [] => Malformed
        end
      else if (c <? 32)%N then Malformed
      else parsed_map (cons c) (parse_string_chars rest)
  end.

(** JSONValue, by recursive descent. [parse_elements] reads the elements of
    an array up to and including the closing bracket, [parse_members] the
    members of an object up to and including the closing brace; both start
    at the first element or member, white space skipped. *)
Fixpoint parse_value (fuel : nat) (s : jsstring) {struct fuel} : parsed JSValue :=
  match fuel with
  | O => OutOfFuel
  | S fuel' =>
      match s with
      | [] => Malformed
      | c :: rest =>
          if (c =? ch "{")%N then
            match skip_ws rest with
            | d :: rest' =>
                if (d =? ch "}")%N then Parsed (JObject []) rest'
                else parsed_map JObject (parse_members fuel' (d :: rest'))
            | [] => Malformed
            end
          else if (c =? ch "[")%N then
            match skip_ws rest with
            | d :: rest' =>
                if (d =? ch "]")%N then Parsed (JArray []) rest'
                else parsed_map JArray (parse_elements fuel' (d :: rest'))
            | [] => Malformed
            end
          else if (c =? QUOTATION_MARK)%N then parsed_map JString (parse_string_chars rest)
          else if (c =? ch "-")%N || is_digit c then parsed_map JNumber (parse_number s)
          else if startsWith s (str "true") then Parsed (JBool true) (skipn 4 s)
          else if startsWith s (str "false") then Parsed (JBool false) (skipn 5 s)
          else if startsWith s (str "null") then Parsed JNull (skipn 4 s)
          else Malformed
      end
  end
with parse_elements (fuel : nat) (s : jsstring) {struct fuel} : parsed (list JSValue) :=
  match fuel with
  | O => OutOfFuel
  | S fuel' =>
      match parse_value fuel' s with
      | Parsed v after =>
          match skip_ws after with
          | c :: rest =>
              if (c =? ch ",")%N
              then parsed_map (cons v) (parse_elements fuel' (skip_ws rest))
              else if (c =? ch "]")%N then Parsed [v] rest
              else Malformed
          | [] => Malformed
          end
      | Malformed => Malformed
      | OutOfFuel => OutOfFuel
      end
  end
with parse_members (fuel : nat) (s : jsstring) {struct fuel}
  : parsed (list (jsstring * JSValue)) :=
  match fuel with
  | O => OutOfFuel
  | S fuel' =>
      match s with
      | q :: rest =>
          if (q =? QUOTATION_MARK)%N then
            match parse_string_chars rest with
            | Parsed key after_key =>
                match skip_ws after_key with
                | colon :: rest1 =>
                    if (colon =? ch ":")%N then
                      match parse_value fuel' (skip_ws rest1) with
                      | Parsed v after =>
                          match skip_ws after with
                          | c :: rest2 =>
                              if (c =? ch ",")%N
                              then parsed_map (cons (key, v))
                                     (parse_members fuel' (skip_ws rest2))
                              else if (c =? ch "}")%N then Parsed [(key, v)] rest2
                              else Malformed
                          | [] => Malformed
                          end
                      | Malformed => Malformed
                      | OutOfFuel => OutOfFuel
                      end
                    else Malformed
                | [] => Malformed
                end
            | Malformed => Malformed
            | OutOfFuel => OutOfFuel
            end
          else Malformed
      | [] => Malformed
      end
  end.

(** The fuel [JSON_parse] gives the descent; [parse_value_fuel] below shows
    that it is never used up. *)
Definition parse_fuel (text : jsstring) : nat := 2 * length text + 1.

(** JSONText: one value with white space around it and nothing after. *)
Definition parse_text (text : jsstring) : parsed JSValue :=
  match parse_value (parse_fuel text) (skip_ws text) with
  | Parsed v rest =>
      match skip_ws rest with
      | [] => Parsed v []
      | _ :: _ => Malformed
      end
  | Malformed => Malformed
  | OutOfFuel => OutOfFuel
  end.

(** [JSON.parse(text)] without a reviver: the value, or a SyntaxError. *)
Definition JSON_parse (text : jsstring) : completion JSValue :=
  match parse_text text with
  | Parsed v _ => Normal v
  | Malformed => Throw SyntaxError
  | OutOfFuel => Throw SyntaxError
  end.

(** ** Property access, truthiness *)

(** The own data property [key] of an object built by [JSON.parse]. The
    members are kept in source order; a later member with the same key
    overwrote the earlier one, so the last one is the property's value. *)
Fixpoint lookup_property (key : jsstring) (props : list (jsstring * JSValue))
  : option JSValue :=
  match props with
  | [] => None
  | (k, v) :: rest =>
      match lookup_property key rest with
      | Some later => Some later
      | None => if jsstring_eqb k key then Some v else None
      end
  end.

(** [data.answer]. Reading a property of [null] throws a TypeError; an
    object has the property when a member is named so; arrays, strings,
    numbers and booleans have no property of that name, own or inherited.
    [None] is [undefined]. *)
Definition get_answer (data : JSValue) : completion (option JSValue) :=
  match data with
  | JNull => Throw TypeError
  | JObject props => Normal (lookup_property (str "answer") props)
  | JBool _ | JNumber _ | JString _ | JArray _ => Normal None
  end.

(** Whether the double nearest to the literal is +0 or -0. A decimal rounds
    to zero when its magnitude is at most 2^-1075, half of the least
    positive double (the tie goes to the even neighbour, zero). *)
Definition number_is_zero (n : JSONNumber) : bool :=
  (digits n =? 0)%N
  || ((exponent n <? 0)%Z
      && (Z.of_N (digits n) * 2 ^ 1075 <=? 10 ^ (- exponent n))%Z).

(** ToBoolean. *)
Definition ToBoolean (v : option JSValue) : bool :=
  match v with
  | None => false
  | Some JNull => false
  | Some (JBool b) => b
  | Some (JNumber n) => negb (number_is_zero n)
  | Some (JString s) => truthy_string s
  | Some (JArray _) => true
  | Some (JObject _) => true
  end.

(** ** The WebSocket *)

Inductive ReadyState := CONNECTING | OPEN | CLOSING | CLOSED.

(** The socket as the component sees it: its [readyState], and the text
    frames it has put on the wire, oldest first. *)
Record WebSocket := { readyState : ReadyState; wire : list jsstring }.

(** [new WebSocket(url)]. *)
Definition WebSocket_new : WebSocket := {| readyState := CONNECTING; wire := [] |}.

(** [WebSocket.prototype.send] (WHATWG WebSockets, 3.1): while CONNECTING it
    throws an InvalidStateError; while OPEN the data is transmitted; while
    CLOSING or CLOSED the call returns and the data is discarded. *)
Definition WebSocket_send (ws : WebSocket) (data : jsstring)
  : completion unit * WebSocket :=
  match readyState ws with
  | CONNECTING => (Throw InvalidStateError, ws)
  | OPEN => (Normal tt, {| readyState := OPEN; wire := wire ws ++ [data] |})
  | CLOSING => (Normal tt, ws)
  | CLOSED => (Normal tt, ws)
  end.

(** [WebSocket.prototype.close]: nothing when CLOSING or CLOSED, otherwise
    the socket starts closing. *)
Definition WebSocket_close (ws : WebSocket) : WebSocket :=
  match readyState ws with
  | CONNECTING | OPEN => {| readyState := CLOSING; wire := wire ws |}
  | CLOSING | CLOSED => ws
  end.

(** ** The component state *)

(** [input] and [messages] are the two [useState] cells, [websocket] is the
    [current] field of the ref ([None] is [null], its value until the mount
    effect has run). *)
Record AppState := {
  input : jsstring;
  messages : list jsstring;
  websocket : option WebSocket
}.

(** The state of the first render: [useState('')], [useState([])],
    [useRef(null)]. *)
Definition initial_state : AppState :=
  {| input := []; messages := []; websocket := None |}.

(** A handler runs to completion on the state of the component: it returns
    or throws, and leaves a state behind either way. *)
Definition handler (A : Type) : Type := AppState -> completion A * AppState.

Definition ret {A} (a : A) : handler A := fun st => (Normal a, st).

Definition bind {A B} (m : handler A) (k : A -> handler B) : handler B :=
  fun st =>
    match m st with
    | (Normal a, st') => k a st'
    | (Throw e, st') => (Throw e, st')
    end.

Declare Scope handler_scope.
Delimit Scope handler_scope with handler.
Notation "x <- m ;; k" := (bind m (fun x => k))
  (at level 61, m at next level, right associativity) : handler_scope.
Notation "m ;; k" := (bind m (fun _ => k))
  (at level 61, right associativity) : handler_scope.

(** The value of an expression that may throw. *)
Definition eval {A} (c : completion A) : handler A := fun st => (c, st).

(** The mount effect (lines 14-17) and its cleanup (lines 30-35). *)
Definition mount : handler unit :=
  fun st =>
    (Normal tt,
     {| input := input st; messages := messages st; websocket := Some WebSocket_new |}).

Definition cleanup : handler unit :=
  fun st =>
    match websocket st with
    | Some ws =>
        (Normal tt,
         {| input := input st; messages := messages st;
            websocket := Some (WebSocket_close ws) |})
    | None => (Normal tt, st)
    end.

(** What is left when React unmounts the component: the cleanup of the
    mount effect has run on the socket, and the two state cells are gone
    with the component, which the model writes as the empty draft and the
    empty transcript. Nothing is displayed any more. *)
Definition unmounted (st : AppState) : AppState :=
  {| input := []; messages := []; websocket := websocket (snd (cleanup st)) |}.

(** [setInput(text)]. *)
Definition setInput (text : jsstring) : handler unit :=
  fun st => (Normal tt, {| input := text; messages := messages st; websocket := websocket st |}).

(** [setMessages(updater)]: the setter queues the updater and returns; it
    never throws (an error of the early run React may give the updater
    inside the setter is swallowed). React runs the updaters of an event,
    in the order they were queued, when it renders the component again
    after the event; the model applies the updater in place. When the
    updater throws, that render throws: the component has no error
    boundary, so React unmounts it. *)
Definition setMessages (updater : list jsstring -> completion (list jsstring))
  : handler unit :=
  fun st =>
    match updater (messages st) with
    | Normal next =>
        (Normal tt, {| input := input st; messages := next; websocket := websocket st |})
    | Throw _ => (Normal tt, unmounted st)
    end.

(** [websocket.current.send(data)]: a TypeError when the ref is still null. *)
Definition websocket_current_send (data : jsstring) : handler unit :=
  fun st =>
    match websocket st with
    | None => (Throw TypeError, st)
    | Some ws =>
        let (result, ws') := WebSocket_send ws data in
        (result, {| input := input st; messages := messages st; websocket := Some ws' |})
    end.

(** ** sendMessage (Chatbot.js, lines 43-58) *)

Local Open Scope handler_scope.

(** [input] is the value the state had when the handler was created, that
    is when the handler starts. *)
Definition sendMessage : handler unit :=
  fun st =>
    let input := input st in
    (if truthy_string (trim input) then
       let message := JSON_stringify_input input in
       websocket_current_send message ;;
       setMessages (fun prevMessages => Normal (prevMessages ++ [str "You: " ++ input])) ;;
       setInput []
     else ret tt) st.

(** The [onChange] handler of the text field. *)
Definition onChange (value : jsstring) : handler unit := setInput value.

(** ** The handlers and the view over the libraries *)

(** The markup of one message as React receives it: the attributes of the
    [div] and the markup set as its inner HTML. *)
Record Element := {
  className : jsstring;
  key : jsstring;
  margin : jsstring;
  alignSelf : jsstring;
  innerHTML : jsstring
}.

(** [Array.prototype.reverse] reverses its receiver in place and returns
    it: the receiver afterwards, and the value returned. *)
Definition Array_reverse {A} (receiver : list A) : list A * list A :=
  (rev receiver, rev receiver).

(** What happens to the component: the effects of mounting and unmounting,
    a change of the socket's ready state by the transport, a keystroke in
    the text field, Enter or the Send button, and an inbound text frame. *)
Inductive Event :=
| Mount
| Unmount
| Transport (state : ReadyState)
| Change (value : jsstring)
| Submit
| Message (data : jsstring).

Section ChatApp.

(** Number::toString, the shortest decimal that reads back as the double:
    floating point formatting, left open. *)
Variable Number_toString : JSONNumber -> jsstring.

(** [marked(src)] of the marked package and [DOMPurify.sanitize(dirty)] of
    the dompurify package, both with their default configuration: strings
    to strings. Neither package is part of the repository's sources. *)
Variable marked : jsstring -> jsstring.
Variable sanitize : jsstring -> jsstring.

(** ToString, as a template literal applies it. An array is joined with
    commas, [null] elements giving the empty string. An object answers
    [[object Object]] through [Object.prototype.toString], unless a member
    named [toString] hides that method: JSON values are never callable,
    [valueOf] gives no primitive either, and the conversion throws a
    TypeError. *)
Fixpoint ToString (v : JSValue) : completion jsstring :=
  match v with
  | JNull => Normal (str "null")
  | JBool true => Normal (str "true")
  | JBool false => Normal (str "false")
  | JNumber n => Normal (Number_toString n)
  | JString s => Normal s
  | JArray elements =>
      (fix join (l : list JSValue) : completion jsstring :=
         match l with
         | [] => Normal []
         | e :: rest =>
             match (match e with JNull => Normal [] | _ => ToString e end) with
             | Normal first =>
                 match rest with
                 | [] => Normal first
                 | _ :: _ =>
                     match join rest with
                     | Normal others => Normal (first ++ str "," ++ others)
                     | Throw err => Throw err
                     end
                 end
             | Throw err => Throw err
             end
         end) elements
  | JObject props =>
      match lookup_property (str "toString") props with
      | Some _ => Throw TypeError
      | None => Normal (str "[object Object]")
      end
  end.

(** *** websocket.current.onmessage (Chatbot.js, lines 19-27)

    [event_data] is the text [JSON.parse] is given: the text of a text
    frame (for a binary frame, the name of its Blob, which does not parse).
    The template literal sits in the updater, so the conversion of the
    answer to a string runs when React applies the update, after the
    handler has returned: a conversion that throws does not make the
    handler throw, it makes React unmount the component. *)
Definition onmessage (event_data : jsstring) : handler unit :=
  data <- eval (JSON_parse event_data) ;;
  answer <- eval (get_answer data) ;;
  if ToBoolean answer then
    setMessages (fun prevMessages =>
      match answer with
      | Some value =>
          match ToString value with
          | Normal text => Normal (prevMessages ++ [text])
          | Throw e => Throw e
          end
      | None => Normal (prevMessages ++ [str "undefined"])
      end)
  else ret tt.

(** *** renderMessageAsMarkdown (Chatbot.js, lines 68-93) *)
Definition renderMessageAsMarkdown (msg : jsstring) : Element :=
  let isUserMessage := startsWith msg (str "You: ") in
  let displayMessage :=
    if isUserMessage then str "<b>You:</b><br />" ++ substring msg 5
    else str "<b>Nydas:</b><br />" ++ msg in
  let rawMarkup := marked displayMessage in
  let sanitizedMarkup := sanitize rawMarkup in
  {| className := if isUserMessage then str "box3 sb13" else str "box3 sb14";
     key := if isUserMessage then str "user-" ++ displayMessage
            else str "server-" ++ displayMessage;
     margin := if isUserMessage then str "5px 15px" else str "5px 0 5px 15px";
     alignSelf := if isUserMessage then str "flex-end" else str "flex-start";
     innerHTML := sanitizedMarkup |}.

(** *** The message list of the render function (Chatbot.js, line 112)

    [[...messages]] is a new array with the elements of the state's array;
    [reverse] turns that copy around in place and returns it; [map] builds
    the children. The state's array is not the receiver of [reverse]. *)
Definition render_messages : handler (list Element) :=
  fun st =>
    let copy := messages st in
    let '(_, reversed) := Array_reverse copy in
    (Normal (map renderMessageAsMarkdown reversed), st).

(** *** The event loop

    One event at a time, each handler to completion and, after it, the
    render React owes the event. An exception that leaves a handler is
    reported by the event loop; the component goes on from the state the
    handler left. [Unmount] is React taking the component away: the cleanup
    runs and draft and transcript are discarded. An event that reaches a
    component that has been unmounted is run on what [unmounted] left. *)
Definition dispatch (ev : Event) : handler unit :=
  match ev with
  | Mount => mount
  | Unmount => fun st => (Normal tt, unmounted st)
  | Transport rs =>
      fun st =>
        match websocket st with
        | Some ws =>
            (Normal tt,
             {| input := input st; messages := messages st;
                websocket := Some {| readyState := rs; wire := wire ws |} |})
        | None => (Normal tt, st)
        end
  | Change value => onChange value
  | Submit => sendMessage
  | Message data => onmessage data
  end.

Definition step (st : AppState) (ev : Event) : AppState := snd (dispatch ev st).

Definition run (st : AppState) (evs : list Event) : AppState := fold_left step evs st.

(** The children of the message list as the render function hands them to
    React (line 112), first child first. Which nodes React then keeps in
    the document is decided by its reconciliation of the children by their
    keys, which is not part of the model: the document shows these children
    in this order as long as their keys are all different. *)
Definition displayed (st : AppState) : list Element :=
  match fst (render_messages st) with
  | Normal children => children
  | Throw _ => []
  end.

End ChatApp.

(** ** Observations on a state *)

(** The ready state of the connection, [None] while there is no socket. *)
Definition connection (st : AppState) : option ReadyState :=
  option_map readyState (websocket st).

(** The frames the client has put on the wire so far. *)
Definition frames (st : AppState) : list jsstring :=
  match websocket st with
  | Some ws => wire ws
  | None => []
  end.

(** A draft is blank when it is empty or all white space. *)
Definition blank (s : jsstring) : bool := forallb is_whitespace s.

(** One exchange of the conversation: the user types a draft and submits
    it, or the server's frame arrives. *)
Inductive Operation :=
| UserSend (draft : jsstring)
| Receive (payload : jsstring).

Definition events_of (op : Operation) : list Event :=
  match op with
  | UserSend draft => [Change draft; Submit]
  | Receive payload => [Message payload]
  end.

(** The turn an operation stands for: a draft that is not blank, stored
    under the [You: ] prefix, or a frame whose [answer] is a string that
    is not empty, stored as it is. *)
Inductive records : Operation -> jsstring -> Prop :=
| records_send draft :
    blank draft = false -> records (UserSend draft) (str "You: " ++ draft)
| records_answer payload data text :
    JSON_parse payload = Normal data ->
    get_answer data = Normal (Some (JString text)) ->
    text <> [] ->
    records (Receive payload) text.

(** Modelled from the spec: the contract of the sanitization step of the
    RenderPipeline (4.3, step 3 and the contract below it), which the code
    leaves to [DOMPurify.sanitize] of the dompurify package, not part of the
    sources: whatever markup goes in, the markup that comes out is [safe]
    to render, where [safe] stands for the absence of executable constructs
    such as script elements. *)
Definition sanitizer_contract (safe : jsstring -> Prop)
  (sanitize : jsstring -> jsstring) : Prop :=
  forall dirty, safe (sanitize dirty).

(** *** Stand-ins for the libraries, to run the component on examples *)

(** A sanitizer that keeps no markup at all: every [<] becomes [&lt;]. *)
Fixpoint escape_markup (dirty : jsstring) : jsstring :=
  match dirty with
  | [] => []
  | c :: rest =>
      if (c =? ch "<")%N then str "&lt;" ++ escape_markup rest
      else c :: escape_markup rest
  end.

(** A markdown expansion that wraps the source in one paragraph. *)
Definition paragraph (src : jsstring) : jsstring := str "<p>" ++ src ++ str "</p>".

(** A number formatting that writes every number as a question mark. *)
Definition unformatted (n : JSONNumber) : jsstring := str "?".

Definition to_lower (c : code_unit) : code_unit :=
  if ((65 <=? c) && (c <=? 90))%N then (c + 32)%N else c.

(** Whether the markup has the opening of a script tag anywhere, in any
    letter case: no script element can be present without one. *)
Fixpoint has_script_tag (markup : jsstring) : bool :=
  match markup with
  | [] => false
  | _ :: rest =>
      startsWith (map to_lower markup) (str "<script") || has_script_tag rest
  end.

(** The state of the examples: an empty transcript, a draft in the text
    field and a socket in the given ready state. *)
Definition socket_state (rs : ReadyState) (draft : jsstring) : AppState :=
  {| input := draft; messages := [];
     websocket := Some {| readyState := rs; wire := [] |} |}.

(** ** Bounds on the parsing functions *)

(** A parsing function is [bounded] on a text when the text it leaves is no
    longer than the text it was given, and [fuelled] when it did not stop
    for lack of fuel. *)
Definition bounded {A} (s : jsstring) (p : parsed A) : Prop :=
  match p with
  | Parsed _ rest => length rest <= length s
  | Malformed => True
  | OutOfFuel => True
  end.

Definition fuelled {A} (p : parsed A) : Prop :=
  match p with
  | OutOfFuel => False
  | _ => True
  end.

(** ** The traffic and the frames *)

(** The events that come from the user and from the server, as opposed to
    the life cycle of the component and the moves of the transport. *)
Definition is_traffic (ev : Event) : bool :=
  match ev with
  | Change _ | Submit | Message _ => true
  | Mount | Unmount | Transport _ => false
  end.

(** A string all of whose elements are code units, numbers below 2^16. *)
Definition well_formed (s : jsstring) : Prop := Forall (fun c => (c < 65536)%N) s.

(** A frame as [sendMessage] builds them: [JSON.stringify({ input })] for a
    draft that is not blank. *)
Definition client_frame (frame : jsstring) : Prop :=
  exists draft, blank draft = false /\ frame = JSON_stringify_input draft.

(** The text of an object with the one member [name] whose value is the
    string [value], both quoted as [JSON.stringify] quotes them, with the
    texts [w0] to [w5] around its tokens: the frame of the wire protocol,
    [{ "answer": text }], however the server spaces it. *)
Definition spaced_member (w0 w1 w2 w3 w4 w5 name value : jsstring) : jsstring :=
  w0 ++ ch "{" :: w1 ++ QuoteJSONString name ++ w2 ++ ch ":" :: w3
     ++ QuoteJSONString value ++ w4 ++ ch "}" :: w5.

(** A text made of JSONWhiteSpace only. *)
Definition json_space (w : jsstring) : bool := forallb is_json_whitespace w.

(** ** Arrays as objects

    A JavaScript array is an object: a variable or a state cell holds a
    reference to it, [reverse] changes the array it is called on, and a
    spread builds a new array. The store below holds the arrays of strings
    allocated so far; a reference is a position in it. *)
Definition reference := nat.
Definition Store := list (list jsstring).

(** The elements of the array a reference points to. *)
Definition contents (store : Store) (a : reference) : list jsstring := nth a store [].

(** The store with the array at [a] replaced. *)
Fixpoint assign (store : Store) (a : reference) (elements : list jsstring) : Store :=
  match store, a with
  | [], _ => []
  | _ :: rest, O => elements :: rest
  | array :: rest, S a' => array :: assign rest a' elements
  end.

(** [[...a]]: a new array with the elements of [a]. *)
Definition Array_spread (store : Store) (a : reference) : Store * reference :=
  (store ++ [contents store a], length store).

(** [a.reverse()]: the array [a] is reversed in place, and [a] is returned. *)
Definition Array_reverse_in_place (store : Store) (a : reference) : Store * reference :=
  (assign store a (rev (contents store a)), a).

(** [a.map(f)]: the values of [f] on the elements of [a], in a new array. *)
Definition Array_map {B} (f : jsstring -> B) (store : Store) (a : reference) : list B :=
  map f (contents store a).

(** The message list of the render function once more (Chatbot.js, line
    112), [[...messages].reverse().map(renderMessageAsMarkdown)], on the
    arrays themselves: [messages] is the reference the state cell holds.
    The children come with the store the expression leaves. *)
Definition render_children (marked sanitize : jsstring -> jsstring)
  (store : Store) (messages : reference) : list Element * Store :=
  let (store1, copy) := Array_spread store messages in
  let (store2, reversed) := Array_reverse_in_place store1 copy in
  (Array_map (renderMessageAsMarkdown marked sanitize) store2 reversed, store2).

(** * Proofs *)

(** ** The parser uses no more fuel than it is given *)

Lemma skip_ws_length (s : jsstring) : length (skip_ws s) <= length s.
Proof.
  induction s as [|c s IH]; simpl; [lia|].
  destruct (is_json_whitespace c); simpl; lia.
Qed.

Lemma skipn_length_le {A} (n : nat) (l : list A) : length (skipn n l) <= length l.
Proof. rewrite length_skipn. lia. Qed.

Lemma read_digits_length (s : jsstring) :
  forall acc count, length (snd (read_digits s acc count)) <= length s.
Proof.
  induction s as [|c s IH]; intros acc count; simpl; [lia|].
  destruct (is_digit c); simpl; [|lia].
  eapply Nat.le_trans; [apply IH | lia].
Qed.

Ltac break_match :=
  match goal with
  | |- context [match ?x with _ => _ end] => destruct x eqn:?
  end.

Ltac break_hyp :=
  match goal with
  | H : context [match ?x with _ => _ end] |- _ => destruct x eqn:?
  end.

Ltac pair_eqs :=
  repeat match goal with
  | H : (_, _) = (_, _) |- _ => inversion H; clear H; subst
  end.

Lemma bounded_map {A B} (f : A -> B) s (p : parsed A) :
  bounded s p -> bounded s (parsed_map f p).
Proof. destruct p; simpl; auto. Qed.

Lemma fuelled_map {A B} (f : A -> B) (p : parsed A) :
  fuelled p -> fuelled (parsed_map f p).
Proof. destruct p; simpl; auto. Qed.

Lemma bounded_weaken {A} s s' (p : parsed A) :
  length s <= length s' -> bounded s p -> bounded s' p.
Proof. destruct p; simpl; auto; lia. Qed.


Lemma read_digits_bounded s acc count m cnt r :
  read_digits s acc count = (m, cnt, r) -> length r <= length s.
Proof.
  intros H. pose proof (read_digits_length s acc count) as Hl.
  rewrite H in Hl. exact Hl.
Qed.

Ltac digits_bounds :=
  repeat match goal with
  | H : read_digits _ _ _ = (_, _, _) |- _ => apply read_digits_bounded in H
  end.

Lemma parse_fraction_bounded int s :
  bounded s (parse_fraction int s) /\ fuelled (parse_fraction int s).
Proof.
  unfold parse_fraction.
  repeat break_match; digits_bounds; simpl in *; split; auto; lia.
Qed.

Lemma parse_exponent_bounded s :
  bounded s (parse_exponent s) /\ fuelled (parse_exponent s).
Proof.
  unfold parse_exponent.
  repeat break_match; repeat break_hyp; pair_eqs; digits_bounds;
    simpl in *; split; auto; lia.
Qed.

Lemma parse_number_bounded s :
  bounded s (parse_number s) /\ fuelled (parse_number s).
Proof.
  unfold parse_number.
  repeat break_match; repeat break_hyp; pair_eqs;
    repeat match goal with
    | H : parse_fraction ?i ?t = _ |- _ =>
        let B := fresh in
        pose proof (parse_fraction_bounded i t) as B; rewrite H in B; clear H
    | H : parse_exponent ?t = _ |- _ =>
        let B := fresh in
        pose proof (parse_exponent_bounded t) as B; rewrite H in B; clear H
    end; digits_bounds; simpl in *; try discriminate; try tauto; split; auto; lia.
Qed.

Lemma parse_string_chars_bounded s :
  bounded s (parse_string_chars s) /\ fuelled (parse_string_chars s).
Proof.
  assert (H : forall n s, length s <= n ->
            bounded s (parse_string_chars s) /\ fuelled (parse_string_chars s)).
  { clear s. induction n as [|n IH]; intros s Hn.
    - destruct s; simpl in *; [split; exact I | lia].
    - destruct s as [|c rest]; [simpl; split; exact I|].
      cbn [parse_string_chars].
      repeat break_match; try (split; simpl; auto; lia);
        match goal with
        | |- bounded _ (parsed_map _ (parse_string_chars ?t)) /\ _ =>
            destruct (IH t) as [B F]; [simpl in *; lia|];
            split; [apply bounded_map; eapply bounded_weaken; [|exact B]; simpl; lia
                   | apply fuelled_map; exact F]
        end. }
  apply (H (length s)). lia.
Qed.

Ltac length_facts :=
  repeat match goal with
  | H : skip_ws ?t = _ |- _ =>
      let L := fresh "L" in pose proof (skip_ws_length t) as L; rewrite H in L; clear H
  | H : parse_string_chars ?t = _ |- _ =>
      let L := fresh "L" in pose proof (parse_string_chars_bounded t) as L; rewrite H in L; clear H
  | H : parse_number ?t = _ |- _ =>
      let L := fresh "L" in pose proof (parse_number_bounded t) as L; rewrite H in L; clear H
  | _ : context [length (skip_ws ?t)] |- _ =>
      lazymatch goal with
      | _ : length (skip_ws t) <= length t |- _ => fail
      | _ => pose proof (skip_ws_length t)
      end
  | |- context [length (skip_ws ?t)] =>
      lazymatch goal with
      | _ : length (skip_ws t) <= length t |- _ => fail
      | _ => pose proof (skip_ws_length t)
      end
  | |- context [skipn ?n ?t] =>
      lazymatch goal with
      | _ : length (skipn n t) <= length t |- _ => fail
      | _ => pose proof (skipn_length_le n t)
      end
  end.

(** The text a parsing function leaves is no longer than the text it got. *)
Lemma parse_value_bounded (fuel : nat) :
  (forall s, bounded s (parse_value fuel s))
  /\ (forall s, bounded s (parse_elements fuel s))
  /\ (forall s, bounded s (parse_members fuel s)).
Proof.
  induction fuel as [|fuel (IHv & IHe & IHm)]; [repeat split; intros; exact I|].
  repeat split; intros s;
    cbn [parse_value parse_elements parse_members]; unfold parsed_map;
    repeat break_match; try exact I;
    repeat match goal with
    | H : parse_value fuel ?t = _ |- _ =>
        let L := fresh "L" in pose proof (IHv t) as L; rewrite H in L; clear H
    | H : parse_elements fuel ?t = _ |- _ =>
        let L := fresh "L" in pose proof (IHe t) as L; rewrite H in L; clear H
    | H : parse_members fuel ?t = _ |- _ =>
        let L := fresh "L" in pose proof (IHm t) as L; rewrite H in L; clear H
    end; cbn [bounded fuelled] in *; length_facts; subst; simpl in *; lia.
Qed.

(** With more than twice the length of the text in fuel, the descent does
    not run out of it. *)
Lemma parse_value_fuelled (fuel : nat) :
  (forall s, 2 * length s < fuel -> fuelled (parse_value fuel s))
  /\ (forall s, 2 * length s + 1 < fuel -> fuelled (parse_elements fuel s))
  /\ (forall s, 2 * length s + 1 < fuel -> fuelled (parse_members fuel s)).
Proof.
  induction fuel as [|fuel (IHv & IHe & IHm)]; [repeat split; intros; lia|].
  destruct (parse_value_bounded fuel) as (Bv & Be & Bm).
  repeat split; intros s Hs;
    cbn [parse_value parse_elements parse_members]; unfold parsed_map;
    repeat break_match; try exact I;
    repeat match goal with
    | H : parse_value fuel ?t = Parsed _ _ |- _ =>
        let L := fresh "L" in pose proof (Bv t) as L; rewrite H in L; clear H
    | H : parse_elements fuel ?t = Parsed _ _ |- _ =>
        let L := fresh "L" in pose proof (Be t) as L; rewrite H in L; clear H
    | H : parse_members fuel ?t = Parsed _ _ |- _ =>
        let L := fresh "L" in pose proof (Bm t) as L; rewrite H in L; clear H
    | H : parse_value fuel ?t = OutOfFuel |- _ =>
        let F := fresh "F" in
        assert (F : fuelled (parse_value fuel t));
        [apply IHv; clear H | rewrite H in F; exact F]
    | H : parse_elements fuel ?t = OutOfFuel |- _ =>
        let F := fresh "F" in
        assert (F : fuelled (parse_elements fuel t));
        [apply IHe; clear H | rewrite H in F; exact F]
    | H : parse_members fuel ?t = OutOfFuel |- _ =>
        let F := fresh "F" in
        assert (F : fuelled (parse_members fuel t));
        [apply IHm; clear H | rewrite H in F; exact F]
    end; cbn [bounded fuelled] in *; length_facts; subst; simpl in *; try tauto; lia.
Qed.

(** [JSON.parse] ends in a value or in a syntax error of the text: the
    descent has the fuel it needs. *)
Theorem parse_text_fuelled (text : jsstring) : parse_text text <> OutOfFuel.
Proof.
  unfold parse_text, parse_fuel.
  pose proof (skip_ws_length text) as L.
  assert (F : fuelled (parse_value (2 * length text + 1) (skip_ws text)))
    by (apply parse_value_fuelled; lia).
  destruct (parse_value (2 * length text + 1) (skip_ws text)); simpl in F;
    [destruct (skip_ws rest)| |]; (discriminate || contradiction).
Qed.

(** ** Blank drafts and [trim] *)

Lemma trimStart_blank (s : jsstring) : blank s = true -> trimStart s = [].
Proof.
  induction s as [|c s IH]; simpl; [reflexivity|].
  destruct (is_whitespace c); simpl; [exact IH | discriminate].
Qed.

Lemma trimStart_not_blank (s : jsstring) : blank s = false -> blank (trimStart s) = false.
Proof.
  induction s as [|c s IH]; simpl; [discriminate|].
  destruct (is_whitespace c) eqn:E; simpl; [exact IH | rewrite E; reflexivity].
Qed.

Lemma blank_app (a b : jsstring) : blank (a ++ b) = blank a && blank b.
Proof. apply forallb_app. Qed.

Lemma blank_rev (s : jsstring) : blank (rev s) = blank s.
Proof.
  induction s as [|c s IH]; simpl; [reflexivity|].
  rewrite blank_app, IH. simpl. rewrite andb_true_r. apply andb_comm.
Qed.

(** A blank draft trims to the empty string, any other to a string that is
    not empty. *)
Lemma trim_blank (s : jsstring) : truthy_string (trim s) = negb (blank s).
Proof.
  unfold trim, trimEnd. destruct (blank s) eqn:B; simpl.
  - rewrite (trimStart_blank s B). reflexivity.
  - apply trimStart_not_blank in B. rewrite <- blank_rev in B.
    apply trimStart_not_blank in B. rewrite <- blank_rev in B.
    destruct (rev (trimStart (rev (trimStart s)))); [discriminate | reflexivity].
Qed.

(** ** sendMessage, case by case *)

Lemma sendMessage_blank (st : AppState) :
  blank (input st) = true -> sendMessage st = (Normal tt, st).
Proof.
  intros B. unfold sendMessage. rewrite trim_blank, B. reflexivity.
Qed.

Lemma sendMessage_no_socket (st : AppState) :
  blank (input st) = false -> websocket st = None ->
  sendMessage st = (Throw TypeError, st).
Proof.
  intros B W. unfold sendMessage. rewrite trim_blank, B. simpl.
  unfold bind, websocket_current_send. rewrite W. reflexivity.
Qed.

Lemma sendMessage_socket (st : AppState) (ws : WebSocket) :
  blank (input st) = false -> websocket st = Some ws ->
  sendMessage st =
    match readyState ws with
    | CONNECTING => (Throw InvalidStateError, st)
    | OPEN =>
        (Normal tt,
         {| input := [];
            messages := messages st ++ [str "You: " ++ input st];
            websocket :=
              Some {| readyState := OPEN;
                      wire := wire ws ++ [JSON_stringify_input (input st)] |} |})
    | CLOSING | CLOSED =>
        (Normal tt,
         {| input := [];
            messages := messages st ++ [str "You: " ++ input st];
            websocket := Some ws |})
    end.
Proof.
  intros B W. unfold sendMessage. rewrite trim_blank, B. simpl.
  unfold bind, websocket_current_send, WebSocket_send. rewrite W.
  destruct st as [i m w]; simpl in *; subst w.
  destruct ws as [rs wr]; destruct rs; reflexivity.
Qed.

(** ** [JSON.parse] reads back what [JSON.stringify] wrote *)

(** The four digits of a UnicodeEscape read back as the code unit, a number
    below 2^16. *)
Lemma hex_value_digit (d : N) : (d < 16)%N -> hex_value (hex_digit d) = Some d.
Proof.
  intros H. destruct d as [|p]; [reflexivity|].
  do 4 (destruct p as [p|p|]; try reflexivity); exfalso; lia.
Qed.

Lemma hex4_escape (c : code_unit) :
  (c < 65536)%N ->
  hex4 (hex_digit (c / 4096 mod 16)) (hex_digit (c / 256 mod 16))
       (hex_digit (c / 16 mod 16)) (hex_digit (c mod 16)) = Some c.
Proof.
  intros H. unfold hex4.
  rewrite !hex_value_digit by (apply N.mod_lt; discriminate).
  f_equal. zify. Z.to_euclidean_division_equations. lia.
Qed.

Lemma parse_quote_code_unit (c : code_unit) (tail : jsstring) :
  (c < 65536)%N ->
  parse_string_chars (quote_code_unit c ++ tail)
  = parsed_map (cons c) (parse_string_chars tail).
Proof.
  intros H. unfold quote_code_unit.
  destruct (c =? 8)%N eqn:E8; [apply N.eqb_eq in E8; subst c; reflexivity|].
  destruct (c =? 9)%N eqn:E9; [apply N.eqb_eq in E9; subst c; reflexivity|].
  destruct (c =? 10)%N eqn:E10; [apply N.eqb_eq in E10; subst c; reflexivity|].
  destruct (c =? 12)%N eqn:E12; [apply N.eqb_eq in E12; subst c; reflexivity|].
  destruct (c =? 13)%N eqn:E13; [apply N.eqb_eq in E13; subst c; reflexivity|].
  destruct (c =? QUOTATION_MARK)%N eqn:Eq;
    [apply N.eqb_eq in Eq; subst c; reflexivity|].
  destruct (c =? REVERSE_SOLIDUS)%N eqn:Eb;
    [apply N.eqb_eq in Eb; subst c; reflexivity|].
  destruct ((c <? 32)%N || is_high_surrogate c || is_low_surrogate c) eqn:Eu.
  - unfold UnicodeEscape. cbn [app parse_string_chars].
    change (REVERSE_SOLIDUS =? QUOTATION_MARK)%N with false.
    change (REVERSE_SOLIDUS =? REVERSE_SOLIDUS)%N with true.
    change (ch "u" =? ch "u")%N with true. cbv iota.
    rewrite (hex4_escape c H). reflexivity.
  - apply orb_false_iff in Eu. destruct Eu as [Eu _].
    apply orb_false_iff in Eu. destruct Eu as [Eu _].
    cbn [app parse_string_chars]. rewrite Eq, Eb, Eu. reflexivity.
Qed.

Lemma parse_surrogate (c : code_unit) (tail : jsstring) :
  is_high_surrogate c || is_low_surrogate c = true ->
  parse_string_chars (c :: tail) = parsed_map (cons c) (parse_string_chars tail).
Proof.
  intros H. cbn [parse_string_chars].
  assert (R : (55296 <= c)%N).
  { unfold is_high_surrogate, is_low_surrogate in H.
    apply orb_true_iff in H. destruct H as [H|H];
      apply andb_true_iff in H; destruct H as [H _]; apply N.leb_le in H; lia. }
  replace (c =? QUOTATION_MARK)%N with false
    by (symmetry; apply N.eqb_neq; unfold QUOTATION_MARK; lia).
  replace (c =? REVERSE_SOLIDUS)%N with false
    by (symmetry; apply N.eqb_neq; unfold REVERSE_SOLIDUS; lia).
  replace (c <? 32)%N with false by (symmetry; apply N.ltb_ge; lia).
  reflexivity.
Qed.

(** The characters QuoteJSONString writes between the quotes read back as
    the string quoted. *)
Lemma parse_quote_code_points :
  forall s, Forall (fun c => (c < 65536)%N) s ->
  forall rest,
    parse_string_chars (quote_code_points s ++ QUOTATION_MARK :: rest) = Parsed s rest.
Proof.
  assert (H : forall n s, length s <= n ->
                Forall (fun c => (c < 65536)%N) s ->
                forall rest,
                  parse_string_chars (quote_code_points s ++ QUOTATION_MARK :: rest)
                  = Parsed s rest).
  { induction n as [|n IH]; intros s L W rest.
    - destruct s; [reflexivity | simpl in L; lia].
    - destruct s as [|c s]; [reflexivity|].
      inversion W as [|? ? Wc Ws]; subst; clear W.
      destruct s as [|d t].
      + cbn [quote_code_points]. rewrite (parse_quote_code_unit c _ Wc). reflexivity.
      + cbn [quote_code_points].
        destruct (is_high_surrogate c && is_low_surrogate d) eqn:P.
        * apply andb_true_iff in P. destruct P as [Pc Pd].
          inversion Ws as [|? ? Wd Wt]; subst.
          cbn [app].
          rewrite (parse_surrogate c) by (rewrite Pc; reflexivity).
          rewrite (parse_surrogate d) by (rewrite Pd; apply orb_true_r).
          rewrite (IH t); [reflexivity | simpl in L; lia | exact Wt].
        * rewrite <- app_assoc. rewrite (parse_quote_code_unit c _ Wc).
          rewrite (IH (d :: t)); [reflexivity | simpl in *; lia | exact Ws]. }
  intros s W. apply (H (length s)); [lia | exact W].
Qed.

Lemma skip_ws_skips_nothing (c : code_unit) (rest : jsstring) :
  is_json_whitespace c = false -> skip_ws (c :: rest) = c :: rest.
Proof. intros H. simpl. rewrite H. reflexivity. Qed.

(** An object with one member whose value is a string, as
    [JSON.stringify] writes it. *)
Lemma parse_one_string_member (fuel : nat) (name value rest : jsstring) :
  Forall (fun c => (c < 65536)%N) name ->
  Forall (fun c => (c < 65536)%N) value ->
  parse_value (S (S (S fuel)))
    (ch "{" :: QuoteJSONString name ++ ch ":" :: QuoteJSONString value ++ ch "}" :: rest)
  = Parsed (JObject [(name, JString value)]) rest.
Proof.
  intros Wn Wv. unfold QuoteJSONString.
  cbn [parse_value app].
  change (ch "{" =? ch "{")%N with true. cbv iota.
  rewrite skip_ws_skips_nothing by reflexivity.
  change (QUOTATION_MARK =? ch "}")%N with false. cbv iota.
  cbn [parse_members].
  change (QUOTATION_MARK =? QUOTATION_MARK)%N with true. cbv iota.
  rewrite <- !app_assoc. cbn [app].
  rewrite (parse_quote_code_points name Wn).
  rewrite skip_ws_skips_nothing by reflexivity.
  change (ch ":" =? ch ":")%N with true. cbv iota.
  rewrite skip_ws_skips_nothing by reflexivity.
  cbn [parse_value].
  change (QUOTATION_MARK =? ch "{")%N with false.
  change (QUOTATION_MARK =? ch "[")%N with false.
  change (QUOTATION_MARK =? QUOTATION_MARK)%N with true. cbv iota.
  rewrite (parse_quote_code_points value Wv).
  cbn [parsed_map].
  rewrite skip_ws_skips_nothing by reflexivity.
  change (ch "}" =? ch ",")%N with false.
  change (ch "}" =? ch "}")%N with true. cbv iota.
  reflexivity.
Qed.

(** The frame [sendMessage] builds parses, on the server's side, to the
    object whose [input] is the string it was built from. *)
Theorem parse_stringify_input (input : jsstring) :
  Forall (fun c => (c < 65536)%N) input ->
  JSON_parse (JSON_stringify_input input)
  = Normal (JObject [(str "input", JString input)]).
Proof.
  intros W. unfold JSON_parse, parse_text, parse_fuel, JSON_stringify_input.
  change (str "{" ++ QuoteJSONString (str "input") ++ str ":"
          ++ QuoteJSONString input ++ str "}")
    with (ch "{" :: QuoteJSONString (str "input") ++ ch ":"
          :: QuoteJSONString input ++ ch "}" :: []).
  set (text := ch "{" :: _).
  assert (F : exists k, 2 * length text + 1 = S (S (S k))).
  { exists (2 * length text - 2). unfold text. simpl length. lia. }
  destruct F as [k F]. rewrite F. unfold text.
  rewrite skip_ws_skips_nothing by reflexivity.
  rewrite parse_one_string_member; [reflexivity | | exact W].
  repeat constructor.
Qed.

(** ** Submitting a draft *)

(** C5. Submitting a draft that is empty or all white space does nothing
    and is no error: the handler returns, and the state it leaves (the
    transcript, the socket with the frames on its wire, the draft) is the
    state it found, whatever the connection is. *)
Theorem blank_submit_is_noop (st : AppState) :
  blank (input st) = true -> sendMessage st = (Normal tt, st).
Proof. exact (sendMessage_blank st). Qed.

Lemma blank_submit_is_noop_witness :
  (blank (input (socket_state OPEN [])) = true
   /\ sendMessage (socket_state OPEN []) = (Normal tt, socket_state OPEN []))
  /\ (blank (input (socket_state CONNECTING (str "   "))) = true
      /\ sendMessage (socket_state CONNECTING (str "   "))
         = (Normal tt, socket_state CONNECTING (str "   "))).
Proof.
  split; (split; [reflexivity | apply blank_submit_is_noop; reflexivity]).
Defined.

(** C3, as the code has it. While the connection is not open a submit puts
    no frame on the wire. With a draft that is not blank: while CONNECTING
    the send throws an InvalidStateError, and before the socket exists the
    call throws a TypeError, and either way the state, draft included, is
    left as it was; while CLOSING or CLOSED the send returns without an
    error, the turn is stored and the draft is cleared. *)
Theorem submit_while_not_open (st : AppState) :
  connection st <> Some OPEN ->
  frames (snd (sendMessage st)) = frames st
  /\ (blank (input st) = false ->
      (connection st = Some CONNECTING ->
       sendMessage st = (Throw InvalidStateError, st))
      /\ (connection st = None -> sendMessage st = (Throw TypeError, st))
      /\ (connection st = Some CLOSING \/ connection st = Some CLOSED ->
          fst (sendMessage st) = Normal tt
          /\ input (snd (sendMessage st)) = []
          /\ messages (snd (sendMessage st))
             = messages st ++ [str "You: " ++ input st])).
Proof.
  intros NotOpen. unfold connection, frames in *.
  destruct (blank (input st)) eqn:B.
  - rewrite (sendMessage_blank st B). split; [reflexivity | discriminate].
  - destruct (websocket st) as [ws|] eqn:W.
    + rewrite (sendMessage_socket st ws B W). simpl in *.
      destruct (readyState ws) eqn:R; simpl; rewrite ?W.
      * split; [reflexivity|]. intros _. split; [reflexivity|].
        split; [discriminate|]. intros [C|C]; discriminate C.
      * exfalso. apply NotOpen. reflexivity.
      * split; [reflexivity|]. intros _. split; [discriminate|].
        split; [discriminate|]. intros _. repeat split.
      * split; [reflexivity|]. intros _. split; [discriminate|].
        split; [discriminate|]. intros _. repeat split.
    + rewrite (sendMessage_no_socket st B W). simpl. rewrite W.
      split; [reflexivity|]. intros _. split; [discriminate|].
      split; [reflexivity|]. intros [C|C]; discriminate C.
Qed.

Lemma submit_while_not_open_witness :
  connection (socket_state CONNECTING (str "hello")) <> Some OPEN
  /\ frames (snd (sendMessage (socket_state CONNECTING (str "hello")))) = []
  /\ sendMessage (socket_state CONNECTING (str "hello"))
     = (Throw InvalidStateError, socket_state CONNECTING (str "hello")).
Proof.
  assert (N : connection (socket_state CONNECTING (str "hello")) <> Some OPEN)
    by discriminate.
  destruct (submit_while_not_open (socket_state CONNECTING (str "hello")) N)
    as [F D].
  split; [exact N|]. split; [exact F|].
  apply (D eq_refl). reflexivity.
Defined.

(** C3 fails as stated when the socket is CLOSED: the send does not fail,
    and the draft [hello] is cleared. *)
Lemma submit_while_closed_clears_draft :
  connection (socket_state CLOSED (str "hello")) = Some CLOSED
  /\ sendMessage (socket_state CLOSED (str "hello"))
     = (Normal tt,
        {| input := [];
           messages := [str "You: hello"];
           websocket := Some {| readyState := CLOSED; wire := [] |} |}).
Proof. split; reflexivity. Qed.

(** C4, as the code has it. For a draft that is not blank, the turn is
    stored and the draft is cleared together, exactly when the call of
    [send] returns: that is when there is a socket and it is not
    CONNECTING. The frame goes on the wire in that case only if the socket
    is OPEN. When the call throws, the state is left as it was. *)
Theorem submit_effects (st : AppState) :
  blank (input st) = false ->
  match sendMessage st with
  | (Normal _, st') =>
      (exists rs, connection st = Some rs /\ rs <> CONNECTING)
      /\ messages st' = messages st ++ [str "You: " ++ input st]
      /\ input st' = []
      /\ frames st' =
           match connection st with
           | Some OPEN => frames st ++ [JSON_stringify_input (input st)]
           | _ => frames st
           end
  | (Throw _, st') =>
      (connection st = Some CONNECTING \/ connection st = None) /\ st' = st
  end.
Proof.
  intros B. unfold connection, frames.
  destruct (websocket st) as [ws|] eqn:W.
  - rewrite (sendMessage_socket st ws B W). simpl.
    destruct (readyState ws) eqn:R; simpl.
    + split; [left|]; reflexivity.
    + split; [exists OPEN; split; [reflexivity | discriminate]|]. repeat split.
    + split; [exists CLOSING; split; [reflexivity | discriminate]|]. repeat split.
    + split; [exists CLOSED; split; [reflexivity | discriminate]|]. repeat split.
  - rewrite (sendMessage_no_socket st B W). split; [right|]; reflexivity.
Qed.

Lemma submit_effects_witness :
  blank (input (socket_state OPEN (str "hello"))) = false
  /\ match sendMessage (socket_state OPEN (str "hello")) with
     | (Normal _, st') =>
         (exists rs, connection (socket_state OPEN (str "hello")) = Some rs
                     /\ rs <> CONNECTING)
         /\ messages st' = [str "You: hello"]
         /\ input st' = []
         /\ frames st' = [qstr "{'input':'hello'}"]
     | (Throw _, st') => False
     end.
Proof.
  split; [reflexivity|].
  exact (submit_effects (socket_state OPEN (str "hello")) eq_refl).
Defined.

(** C4 fails as stated when the socket is CLOSING: no frame is transmitted,
    yet the turn is stored and the draft is cleared. *)
Lemma submit_while_closing_stores_turn :
  blank (str "hi") = false
  /\ frames (snd (sendMessage (socket_state CLOSING (str "hi")))) = []
  /\ messages (snd (sendMessage (socket_state CLOSING (str "hi")))) = [str "You: hi"]
  /\ input (snd (sendMessage (socket_state CLOSING (str "hi")))) = [].
Proof. repeat split. Qed.

(** C6, as the code has it. For a draft that is not blank and an open
    socket, the frame put on the wire is [JSON.stringify] of the draft as
    it was typed, and the turn stored is the draft as it was typed after
    [You: ]: the trimmed text is only tested. The frame parses back to the
    object whose [input] is that draft. Frame and turn carry the trimmed
    draft when trimming changes nothing. *)
Theorem submit_carries_draft (st : AppState) :
  blank (input st) = false ->
  connection st = Some OPEN ->
  frames (snd (sendMessage st)) = frames st ++ [JSON_stringify_input (input st)]
  /\ messages (snd (sendMessage st)) = messages st ++ [str "You: " ++ input st]
  /\ (Forall (fun c => (c < 65536)%N) (input st) ->
      JSON_parse (JSON_stringify_input (input st))
      = Normal (JObject [(str "input", JString (input st))]))
  /\ (trim (input st) = input st ->
      frames (snd (sendMessage st))
        = frames st ++ [JSON_stringify_input (trim (input st))]
      /\ messages (snd (sendMessage st))
        = messages st ++ [str "You: " ++ trim (input st)]).
Proof.
  intros B C. unfold connection, frames in *.
  destruct (websocket st) as [ws|] eqn:W; [|discriminate].
  rewrite (sendMessage_socket st ws B W). simpl in C.
  destruct (readyState ws); try discriminate. simpl.
  split; [reflexivity|]. split; [reflexivity|].
  split; [apply parse_stringify_input|].
  intros T. rewrite T. split; reflexivity.
Qed.

Lemma submit_carries_draft_witness :
  blank (input (socket_state OPEN (str "hello"))) = false
  /\ connection (socket_state OPEN (str "hello")) = Some OPEN
  /\ frames (snd (sendMessage (socket_state OPEN (str "hello"))))
     = [qstr "{'input':'hello'}"]
  /\ messages (snd (sendMessage (socket_state OPEN (str "hello"))))
     = [str "You: hello"].
Proof.
  split; [reflexivity|]. split; [reflexivity|].
  destruct (submit_carries_draft (socket_state OPEN (str "hello")) eq_refl eq_refl)
    as (F & M & _).
  split; [exact F | exact M].
Defined.

(** C6 fails as stated on the draft [ hi ] with a space on either side:
    the frame and the stored turn keep both spaces. *)
Lemma submit_keeps_surrounding_space :
  trim (str " hi ") = str "hi"
  /\ frames (snd (sendMessage (socket_state OPEN (str " hi "))))
     = [qstr "{'input':' hi '}"]
  /\ messages (snd (sendMessage (socket_state OPEN (str " hi "))))
     = [str "You:  hi "]
  /\ qstr "{'input':' hi '}" <> JSON_stringify_input (trim (str " hi "))
  /\ str "You:  hi " <> str "You: " ++ trim (str " hi ").
Proof. repeat split; discriminate. Qed.

(** ** Inbound frames *)

Section Inbound.

Variable Number_toString : JSONNumber -> jsstring.

(** The handler, once the text of the frame is parsed. *)
Lemma onmessage_parsed (payload : jsstring) (data : JSValue) (st : AppState) :
  JSON_parse payload = Normal data ->
  onmessage Number_toString payload st =
    match get_answer data with
    | Throw e => (Throw e, st)
    | Normal None => (Normal tt, st)
    | Normal (Some value) =>
        if ToBoolean (Some value) then
          match ToString Number_toString value with
          | Normal text =>
              (Normal tt,
               {| input := input st;
                  messages := messages st ++ [text];
                  websocket := websocket st |})
          | Throw _ => (Normal tt, unmounted st)
          end
        else (Normal tt, st)
    end.
Proof.
  intros P. unfold onmessage, bind, eval. rewrite P.
  destruct (get_answer data) as [[value|]|e]; try reflexivity.
  destruct (ToBoolean (Some value)); [|reflexivity].
  unfold setMessages. destruct (ToString Number_toString value); reflexivity.
Qed.

(** A frame whose [answer] is a string that is not empty. *)
Lemma onmessage_string_answer (payload : jsstring) (data : JSValue)
  (text : jsstring) (st : AppState) :
  JSON_parse payload = Normal data ->
  get_answer data = Normal (Some (JString text)) ->
  text <> [] ->
  onmessage Number_toString payload st =
    (Normal tt,
     {| input := input st; messages := messages st ++ [text];
        websocket := websocket st |}).
Proof.
  intros P G Ne. rewrite (onmessage_parsed payload data st P), G.
  destruct text; [contradiction | reflexivity].
Qed.

(** C2, as the code has it. A frame whose text does not parse makes the
    handler throw: the SyntaxError of [JSON.parse] leaves the handler,
    which has no [try]. The frame is dropped and the state, the
    transcript with it, is left as it was. *)
Theorem malformed_frame_throws (payload : jsstring) (e : JSError) (st : AppState) :
  JSON_parse payload = Throw e ->
  e = SyntaxError
  /\ parse_text payload = Malformed
  /\ onmessage Number_toString payload st = (Throw SyntaxError, st)
  /\ messages (snd (onmessage Number_toString payload st)) = messages st.
Proof.
  intros P.
  assert (E : e = SyntaxError).
  { unfold JSON_parse in P. destruct (parse_text payload); congruence. }
  subst e. split; [reflexivity|].
  split.
  { pose proof (parse_text_fuelled payload) as T. unfold JSON_parse in P.
    destruct (parse_text payload); [discriminate | reflexivity | contradiction]. }
  assert (H : onmessage Number_toString payload st = (Throw SyntaxError, st)).
  { unfold onmessage, bind, eval. rewrite P. reflexivity. }
  rewrite H. split; reflexivity.
Qed.

(** C8, as the code has it. For a frame that parses: when the data has
    an [answer] that is truthy and can be turned into a string, the turn
    appended is that string, which for a string answer (one that is not
    empty) is the answer itself; strings, numbers and booleans can always
    be turned into a string. When the [answer] is truthy and turning it
    into a string throws, no turn is appended: the handler returns, and
    React, rendering again, unmounts the component, so the draft and the
    transcript are gone and the socket is closed. When the [answer] is
    there but falsy (the empty string, zero, [false], [null]) or is not
    there, the transcript is left as it was. Reading [answer] off the data
    [null] throws. *)
Theorem answer_frame_appends (payload : jsstring) (data : JSValue) (st : AppState) :
  JSON_parse payload = Normal data ->
  (forall text, get_answer data = Normal (Some (JString text)) -> text <> [] ->
     onmessage Number_toString payload st =
       (Normal tt,
        {| input := input st; messages := messages st ++ [text];
           websocket := websocket st |}))
  /\ (forall value text,
        get_answer data = Normal (Some value) -> ToBoolean (Some value) = true ->
        ToString Number_toString value = Normal text ->
        onmessage Number_toString payload st =
          (Normal tt,
           {| input := input st; messages := messages st ++ [text];
              websocket := websocket st |}))
  /\ (forall value,
        get_answer data = Normal (Some value) ->
        match value with
        | JString _ | JNumber _ | JBool _ =>
            exists text, ToString Number_toString value = Normal text
        | JNull | JArray _ | JObject _ => True
        end)
  /\ (forall value e,
        get_answer data = Normal (Some value) -> ToBoolean (Some value) = true ->
        ToString Number_toString value = Throw e ->
        onmessage Number_toString payload st = (Normal tt, unmounted st))
  /\ (forall value,
        get_answer data = Normal (Some value) -> ToBoolean (Some value) = false ->
        onmessage Number_toString payload st = (Normal tt, st))
  /\ (get_answer data = Normal None -> onmessage Number_toString payload st = (Normal tt, st))
  /\ (forall e, get_answer data = Throw e ->
        data = JNull /\ onmessage Number_toString payload st = (Throw TypeError, st)).
Proof.
  intros P. rewrite (onmessage_parsed payload data st P).
  split; [|split; [|split; [|split; [|split; [|split]]]]].
  - intros text G Ne. rewrite G. destruct text; [contradiction|]. reflexivity.
  - intros value text G T S. rewrite G, T, S. reflexivity.
  - intros value _. destruct value as [|[|]|n|s|elements|props]; try exact I;
      eexists; reflexivity.
  - intros value e G T S. rewrite G, T, S. reflexivity.
  - intros value G T. rewrite G, T. reflexivity.
  - intros G. rewrite G. reflexivity.
  - intros e G. rewrite G. destruct data; simpl in G; try discriminate.
    inversion G. split; reflexivity.
Qed.

End Inbound.

Lemma malformed_frame_throws_witness :
  JSON_parse (str "not-json") = Throw SyntaxError
  /\ onmessage unformatted (str "not-json") (socket_state OPEN [])
     = (Throw SyntaxError, socket_state OPEN []).
Proof.
  split; [reflexivity|].
  apply (malformed_frame_throws unformatted (str "not-json") SyntaxError
           (socket_state OPEN []) eq_refl).
Defined.

(** C2 fails as stated on the frame [not-json]: the exception leaves the
    handler, whatever the formatting of numbers and the state. *)
Lemma not_json_escapes_handler :
  JSON_parse (str "not-json") = Throw SyntaxError
  /\ (forall Number_toString st,
        fst (onmessage Number_toString (str "not-json") st) = Throw SyntaxError).
Proof. split; reflexivity. Qed.

(** A string answer is stored; an answer that is an object with a member
    named [toString] takes the component down. *)
Lemma answer_frame_appends_witness :
  (JSON_parse (qstr "{'answer':'hi there'}")
     = Normal (JObject [(str "answer", JString (str "hi there"))])
   /\ onmessage unformatted (qstr "{'answer':'hi there'}") (socket_state OPEN [])
      = (Normal tt,
         {| input := []; messages := [str "hi there"];
            websocket := Some {| readyState := OPEN; wire := [] |} |}))
  /\ (JSON_parse (qstr "{'answer':{'toString':1}}")
        = Normal (JObject [(str "answer",
                            JObject [(str "toString",
                                      JNumber {| negative := false; digits := 1;
                                                 exponent := 0 |})])])
      /\ onmessage unformatted (qstr "{'answer':{'toString':1}}")
           {| input := str "draft"; messages := [str "You: hello"];
              websocket := Some {| readyState := OPEN; wire := [] |} |}
         = (Normal tt,
            {| input := []; messages := [];
               websocket := Some {| readyState := CLOSING; wire := [] |} |})).
Proof.
  split; (split; [reflexivity|]).
  - refine (proj1 (answer_frame_appends unformatted (qstr "{'answer':'hi there'}")
                     (JObject [(str "answer", JString (str "hi there"))])
                     (socket_state OPEN []) eq_refl)
              (str "hi there") eq_refl _).
    discriminate.
  - exact (proj1 (proj2 (proj2 (proj2
             (answer_frame_appends unformatted (qstr "{'answer':{'toString':1}}")
                (JObject [(str "answer",
                           JObject [(str "toString",
                                     JNumber {| negative := false; digits := 1;
                                                exponent := 0 |})])])
                {| input := str "draft"; messages := [str "You: hello"];
                   websocket := Some {| readyState := OPEN; wire := [] |} |}
                eq_refl))))
             (JObject [(str "toString",
                        JNumber {| negative := false; digits := 1; exponent := 0 |})])
             TypeError eq_refl eq_refl eq_refl).
Defined.

(** C8 fails as stated on the frame whose [answer] is the empty string: it
    parses, the data has the field, and no turn is appended. *)
Lemma empty_answer_is_ignored :
  JSON_parse (qstr "{'answer':''}") = Normal (JObject [(str "answer", JString [])])
  /\ get_answer (JObject [(str "answer", JString [])]) = Normal (Some (JString []))
  /\ (forall Number_toString st,
        onmessage Number_toString (qstr "{'answer':''}") st = (Normal tt, st)).
Proof. repeat split. Qed.

(** ** The transcript and the view *)

Lemma unmounted_frames (st : AppState) : frames (unmounted st) = frames st.
Proof.
  unfold unmounted, frames, cleanup.
  destruct (websocket st) as [[rs sent]|] eqn:W; [destruct rs|]; simpl;
    rewrite ?W; reflexivity.
Qed.

Lemma unmounted_not_open (st : AppState) : connection (unmounted st) <> Some OPEN.
Proof.
  unfold unmounted, connection, cleanup.
  destruct (websocket st) as [[rs sent]|] eqn:W; [destruct rs|]; simpl;
    rewrite ?W; discriminate.
Qed.

Lemma unmounted_connection (st st' : AppState) :
  connection st = connection st' \/ connection st = connection (unmounted st') ->
  connection (unmounted st) = connection (unmounted st').
Proof.
  unfold unmounted, connection, cleanup.
  destruct (websocket st) as [[rs sent]|] eqn:W;
    destruct (websocket st') as [[rs' sent']|] eqn:W';
    try destruct rs; try destruct rs'; simpl; rewrite ?W, ?W'; simpl;
    intros [H|H]; (reflexivity || discriminate H).
Qed.

(** What an inbound frame does to the state: nothing, or one more message
    at the end of the transcript, or, when the answer cannot be turned into
    a string, the end of the component. *)
Lemma onmessage_outcome (Number_toString : JSONNumber -> jsstring)
  (payload : jsstring) (st : AppState) :
  snd (onmessage Number_toString payload st) = st
  \/ (exists text,
        snd (onmessage Number_toString payload st)
        = {| input := input st; messages := messages st ++ [text];
             websocket := websocket st |})
  \/ (exists data value e,
        JSON_parse payload = Normal data
        /\ get_answer data = Normal (Some value)
        /\ ToBoolean (Some value) = true
        /\ ToString Number_toString value = Throw e
        /\ onmessage Number_toString payload st = (Normal tt, unmounted st)).
Proof.
  destruct (JSON_parse payload) as [data|e] eqn:P.
  - rewrite (onmessage_parsed Number_toString payload data st P).
    destruct (get_answer data) as [[value|]|e] eqn:G; try (left; reflexivity).
    destruct (ToBoolean (Some value)) eqn:T; [|left; reflexivity].
    destruct (ToString Number_toString value) as [text|e] eqn:S.
    + right. left. exists text. reflexivity.
    + right. right. exists data, value, e. repeat split; assumption || reflexivity.
  - left. unfold onmessage, bind, eval. rewrite P. reflexivity.
Qed.

Lemma run_app (Number_toString : JSONNumber -> jsstring)
  (evs1 evs2 : list Event) (st : AppState) :
  run Number_toString st (evs1 ++ evs2)
  = run Number_toString (run Number_toString st evs1) evs2.
Proof. unfold run. apply fold_left_app. Qed.

(** The children of the message list are the rendered messages, last
    message first, and rendering leaves the state as it is. *)
Lemma render_messages_spec (marked sanitize : jsstring -> jsstring) (st : AppState) :
  render_messages marked sanitize st
  = (Normal (rev (map (renderMessageAsMarkdown marked sanitize) (messages st))), st).
Proof. unfold render_messages, Array_reverse. rewrite map_rev. reflexivity. Qed.

Lemma displayed_spec (marked sanitize : jsstring -> jsstring) (st : AppState) :
  displayed marked sanitize st
  = rev (map (renderMessageAsMarkdown marked sanitize) (messages st)).
Proof. unfold displayed. rewrite render_messages_spec. reflexivity. Qed.

(** One operation on an open socket stores its turn and leaves the socket
    open. *)
Lemma operation_records (Number_toString : JSONNumber -> jsstring)
  (op : Operation) (turn : jsstring) (st : AppState) :
  connection st = Some OPEN -> records op turn ->
  messages (run Number_toString st (events_of op)) = messages st ++ [turn]
  /\ connection (run Number_toString st (events_of op)) = Some OPEN.
Proof.
  intros C R. destruct R as [draft B | payload data text P G Ne].
  - change (run Number_toString st (events_of (UserSend draft)))
      with (snd (sendMessage
                   {| input := draft; messages := messages st;
                      websocket := websocket st |})).
    unfold connection in *.
    destruct (websocket st) as [ws|] eqn:W; [|discriminate]. simpl in C.
    rewrite (sendMessage_socket
               {| input := draft; messages := messages st; websocket := Some ws |}
               ws B eq_refl).
    injection C as C. rewrite C. split; reflexivity.
  - change (run Number_toString st (events_of (Receive payload)))
      with (snd (onmessage Number_toString payload st)).
    rewrite (onmessage_string_answer Number_toString payload data text st P G Ne).
    split; [reflexivity | exact C].
Qed.

(** C7, at an input where the code goes wrong. The server answers [hi],
    [hi] and [yo]. The transcript holds the three answers in the order
    they came, and the children handed to React are their elements in
    reverse order; but the two children of [hi] carry the same key, the
    key being made of the text of the message, so React cannot tell them
    apart when it reconciles the list. *)
Theorem repeated_answers_share_a_key (Number_toString : JSONNumber -> jsstring)
  (marked sanitize : jsstring -> jsstring) :
  messages
    (run Number_toString (socket_state OPEN [])
       [Message (qstr "{'answer':'hi'}"); Message (qstr "{'answer':'hi'}");
        Message (qstr "{'answer':'yo'}")])
  = [str "hi"; str "hi"; str "yo"]
  /\ map key
       (displayed marked sanitize
          (run Number_toString (socket_state OPEN [])
             [Message (qstr "{'answer':'hi'}"); Message (qstr "{'answer':'hi'}");
              Message (qstr "{'answer':'yo'}")]))
     = [str "server-<b>Nydas:</b><br />yo";
        str "server-<b>Nydas:</b><br />hi";
        str "server-<b>Nydas:</b><br />hi"]
  /\ ~ NoDup
        (map key
           (displayed marked sanitize
              (run Number_toString (socket_state OPEN [])
                 [Message (qstr "{'answer':'hi'}"); Message (qstr "{'answer':'hi'}");
                  Message (qstr "{'answer':'yo'}")]))).
Proof.
  assert (K : map key
                (displayed marked sanitize
                   (run Number_toString (socket_state OPEN [])
                      [Message (qstr "{'answer':'hi'}");
                       Message (qstr "{'answer':'hi'}");
                       Message (qstr "{'answer':'yo'}")]))
              = [str "server-<b>Nydas:</b><br />yo";
                 str "server-<b>Nydas:</b><br />hi";
                 str "server-<b>Nydas:</b><br />hi"]) by reflexivity.
  split; [reflexivity|]. split; [exact K|].
  rewrite K. intros N.
  inversion N as [|? ? _ N']. inversion N' as [|? ? NotIn _].
  apply NotIn. left. reflexivity.
Qed.

Lemma contents_allocated (store : Store) (elements : list jsstring) (a : reference) :
  contents (store ++ [elements]) a
  = if Nat.eqb a (length store) then elements
    else contents store a.
Proof.
  unfold contents. destruct (Nat.eqb a (length store)) eqn:E.
  - apply Nat.eqb_eq in E. subst a. rewrite app_nth2 by lia.
    rewrite Nat.sub_diag. reflexivity.
  - apply Nat.eqb_neq in E. destruct (Nat.lt_ge_cases a (length store)) as [L|L].
    + apply app_nth1. exact L.
    + rewrite !nth_overflow; [reflexivity | lia | rewrite length_app; simpl; lia].
Qed.

(** What the message list does on the arrays: the children are the
    elements of the messages in reverse order, and every array that was
    there keeps its elements, the one more array in the store being the
    reversed copy. *)
Lemma render_children_spec (marked sanitize : jsstring -> jsstring)
  (store : Store) (messages : reference) :
  render_children marked sanitize store messages
  = (rev (map (renderMessageAsMarkdown marked sanitize) (contents store messages)),
     store ++ [rev (contents store messages)]).
Proof.
  unfold render_children, Array_spread, Array_reverse_in_place, Array_map.
  assert (A : assign (store ++ [contents store messages]) (length store)
                (rev (contents (store ++ [contents store messages]) (length store)))
              = store ++ [rev (contents store messages)]).
  { rewrite contents_allocated, Nat.eqb_refl.
    generalize (rev (contents store messages)) (contents store messages).
    intros new old. induction store as [|array store IH]; [reflexivity|].
    simpl. rewrite IH. reflexivity. }
  rewrite A. rewrite contents_allocated, Nat.eqb_refl, map_rev. reflexivity.
Qed.



(** ** The role of a message *)

Lemma startsWith_app (text prefix : jsstring) : startsWith (prefix ++ text) prefix = true.
Proof.
  induction prefix as [|p prefix IH]; simpl; [reflexivity|].
  rewrite N.eqb_refl. exact IH.
Qed.

Lemma startsWith_split (s prefix : jsstring) :
  startsWith s prefix = true -> s = prefix ++ skipn (length prefix) s.
Proof.
  revert s. induction prefix as [|p prefix IH]; intros s H; simpl in *; [reflexivity|].
  destruct s as [|c s]; [discriminate|].
  apply andb_true_iff in H. destruct H as [E H].
  apply N.eqb_eq in E. subst c. simpl. f_equal. apply IH. exact H.
Qed.

(** C10. A stored message is rendered as a user turn exactly when it
    starts with the five characters [You: ]: it then gets the user's class
    and the label [You:] over the rest of the message, the prefix
    stripped; any other message gets the server's class and the label
    [Nydas:] over the whole message. The prefix alone decides: an answer
    of the server that starts with [You: ] is stored as it came and is
    rendered as a user turn. *)
Theorem role_is_the_prefix (Number_toString : JSONNumber -> jsstring)
  (marked sanitize : jsstring -> jsstring) :
  (forall msg,
     (className (renderMessageAsMarkdown marked sanitize msg) = str "box3 sb13"
      <-> exists text, msg = str "You: " ++ text)
     /\ (className (renderMessageAsMarkdown marked sanitize msg) = str "box3 sb14"
         <-> ~ exists text, msg = str "You: " ++ text))
  /\ (forall text,
        innerHTML (renderMessageAsMarkdown marked sanitize (str "You: " ++ text))
        = sanitize (marked (str "<b>You:</b><br />" ++ text)))
  /\ (forall msg,
        (~ exists text, msg = str "You: " ++ text) ->
        innerHTML (renderMessageAsMarkdown marked sanitize msg)
        = sanitize (marked (str "<b>Nydas:</b><br />" ++ msg)))
  /\ (forall payload data text st,
        JSON_parse payload = Normal data ->
        get_answer data = Normal (Some (JString (str "You: " ++ text))) ->
        messages (snd (onmessage Number_toString payload st))
        = messages st ++ [str "You: " ++ text]
        /\ className (renderMessageAsMarkdown marked sanitize (str "You: " ++ text))
           = str "box3 sb13").
Proof.
  assert (U : forall msg, startsWith msg (str "You: ") = true
                          <-> exists text, msg = str "You: " ++ text).
  { intros msg. split.
    - intros H. exists (skipn 5 msg). exact (startsWith_split msg (str "You: ") H).
    - intros [text E]. subst msg. apply startsWith_app. }
  split; [|split; [|split]].
  - intros msg. unfold renderMessageAsMarkdown. cbn [className].
    destruct (startsWith msg (str "You: ")) eqn:S; split; split; intros H.
    + apply U. exact S.
    + reflexivity.
    + discriminate H.
    + exfalso. apply H. apply U. exact S.
    + discriminate H.
    + apply U in H. rewrite H in S. discriminate S.
    + intros E. apply U in E. rewrite E in S. discriminate S.
    + reflexivity.
  - intros text. unfold renderMessageAsMarkdown. cbn [innerHTML].
    rewrite startsWith_app. reflexivity.
  - intros msg H. unfold renderMessageAsMarkdown. cbn [innerHTML].
    destruct (startsWith msg (str "You: ")) eqn:S; [|reflexivity].
    exfalso. apply H. apply U. exact S.
  - intros payload data text st P G.
    rewrite (onmessage_string_answer Number_toString payload data
               (str "You: " ++ text) st P G); [|discriminate].
    split; [reflexivity|].
    unfold renderMessageAsMarkdown. cbn [className].
    rewrite startsWith_app. reflexivity.
Qed.

Lemma role_is_the_prefix_witness :
  JSON_parse (qstr "{'answer':'You: hi'}")
    = Normal (JObject [(str "answer", JString (str "You: hi"))])
  /\ messages (snd (onmessage unformatted (qstr "{'answer':'You: hi'}")
                      (socket_state OPEN [])))
     = [str "You: hi"]
  /\ className (renderMessageAsMarkdown paragraph escape_markup (str "You: hi"))
     = str "box3 sb13".
Proof.
  split; [reflexivity|].
  exact (proj2 (proj2 (proj2 (role_is_the_prefix unformatted paragraph escape_markup)))
           (qstr "{'answer':'You: hi'}")
           (JObject [(str "answer", JString (str "You: hi"))])
           (str "hi") (socket_state OPEN []) eq_refl eq_refl).
Defined.

(** ** Injection safety *)

(** C1. Under the contract of the sanitizer, the markup React is given for
    a message is safe whatever the message is, the text
    [<script>alert(1)</script>] of a user or of the server included: the
    inner HTML of every element rendered, and of every element displayed
    in any state, is what the sanitizer returned. *)
Theorem rendered_markup_is_sanitized (marked sanitize : jsstring -> jsstring)
  (safe : jsstring -> Prop) :
  sanitizer_contract safe sanitize ->
  (forall msg, safe (innerHTML (renderMessageAsMarkdown marked sanitize msg)))
  /\ (forall st, Forall (fun el => safe (innerHTML el)) (displayed marked sanitize st)).
Proof.
  intros S.
  assert (R : forall msg, safe (innerHTML (renderMessageAsMarkdown marked sanitize msg)))
    by (intros msg; apply S).
  split; [exact R|].
  intros st. rewrite displayed_spec. apply Forall_rev. apply Forall_map.
  apply Forall_forall. intros msg _. apply R.
Qed.

Lemma escape_markup_no_script (dirty : jsstring) :
  has_script_tag (escape_markup dirty) = false.
Proof.
  induction dirty as [|c rest IH]; [reflexivity|].
  cbn [escape_markup]. destruct (c =? ch "<")%N eqn:E.
  - change (str "&lt;" ++ escape_markup rest)
      with (38 :: 108 :: 116 :: 59 :: escape_markup rest)%N.
    cbn. exact IH.
  - cbn [has_script_tag]. rewrite IH, orb_false_r.
    cbn [map startsWith str list_ascii_of_string].
    replace (to_lower c =? N_of_ascii "<")%N with false; [reflexivity|].
    symmetry. apply N.eqb_neq. apply N.eqb_neq in E. unfold to_lower.
    change (ch "<") with 60%N in E. change (N_of_ascii "<") with 60%N.
    destruct ((65 <=? c) && (c <=? 90))%N eqn:R; [|exact E].
    apply andb_true_iff in R. destruct R as [R1 R2].
    apply N.leb_le in R1. lia.
Qed.

(** The adversarial text as a user turn and as a server turn, through a
    sanitizer that keeps the contract. *)
Lemma rendered_markup_is_sanitized_witness :
  sanitizer_contract (fun markup => has_script_tag markup = false) escape_markup
  /\ has_script_tag
       (innerHTML (renderMessageAsMarkdown paragraph escape_markup
                     (str "You: <script>alert(1)</script>"))) = false
  /\ has_script_tag
       (innerHTML (renderMessageAsMarkdown paragraph escape_markup
                     (str "<script>alert(1)</script>"))) = false.
Proof.
  split; [exact escape_markup_no_script|].
  split;
    apply (proj1 (rendered_markup_is_sanitized paragraph escape_markup
                    (fun markup => has_script_tag markup = false)
                    escape_markup_no_script)).
Defined.

(** * Further properties of the component *)

(** ** Handlers that throw, frames that arrive *)

(** X1. A handler that throws leaves no partial update: whichever event
    it was, the component state after it is the state before it. *)
Theorem thrown_handler_leaves_state (Number_toString : JSONNumber -> jsstring)
  (ev : Event) (st : AppState) (e : JSError) :
  fst (dispatch Number_toString ev st) = Throw e ->
  snd (dispatch Number_toString ev st) = st.
Proof.
  destruct ev as [| |rs|value| |data]; simpl.
  - discriminate.
  - discriminate.
  - destruct (websocket st); discriminate.
  - discriminate.
  - destruct (blank (input st)) eqn:B.
    + rewrite (sendMessage_blank st B). discriminate.
    + destruct (websocket st) as [ws|] eqn:W.
      * rewrite (sendMessage_socket st ws B W).
        destruct (readyState ws); simpl; (discriminate || reflexivity).
      * rewrite (sendMessage_no_socket st B W). reflexivity.
  - destruct (JSON_parse data) as [parsed|err] eqn:P.
    + rewrite (onmessage_parsed Number_toString data parsed st P).
      destruct (get_answer parsed) as [[value|]|err];
        try (discriminate || reflexivity).
      destruct (ToBoolean (Some value)); [|discriminate].
      destruct (ToString Number_toString value); (discriminate || reflexivity).
    + unfold onmessage, bind, eval. rewrite P. reflexivity.
Qed.

Lemma thrown_handler_leaves_state_witness :
  fst (dispatch unformatted Submit (socket_state CONNECTING (str "hello")))
    = Throw InvalidStateError
  /\ snd (dispatch unformatted Submit (socket_state CONNECTING (str "hello")))
     = socket_state CONNECTING (str "hello").
Proof.
  split; [reflexivity|].
  apply (thrown_handler_leaves_state unformatted Submit
           (socket_state CONNECTING (str "hello")) InvalidStateError).
  reflexivity.
Defined.

(** X2. An inbound frame never puts a frame on the wire and never
    touches the draft in the text field or the socket, with one exception:
    a frame whose answer is truthy and cannot be turned into a string
    makes React unmount the component, which discards the draft and
    closes the socket. *)
Theorem inbound_keeps_draft_and_socket (Number_toString : JSONNumber -> jsstring)
  (payload : jsstring) (st : AppState) :
  frames (snd (onmessage Number_toString payload st)) = frames st
  /\ ((input (snd (onmessage Number_toString payload st)) = input st
       /\ websocket (snd (onmessage Number_toString payload st)) = websocket st)
      \/ (exists data value e,
            JSON_parse payload = Normal data
            /\ get_answer data = Normal (Some value)
            /\ ToBoolean (Some value) = true
            /\ ToString Number_toString value = Throw e
            /\ onmessage Number_toString payload st = (Normal tt, unmounted st))).
Proof.
  destruct (onmessage_outcome Number_toString payload st)
    as [H|[[text H]|(data & value & e & P & G & T & S & H)]].
  - rewrite H. split; [reflexivity|]. left. split; reflexivity.
  - rewrite H. split; [reflexivity|]. left. split; reflexivity.
  - split.
    + rewrite H. apply unmounted_frames.
    + right. exists data, value, e. repeat split; assumption.
Qed.

(** ** The connection *)

Lemma traffic_keeps_connection (Number_toString : JSONNumber -> jsstring)
  (ev : Event) (st : AppState) :
  is_traffic ev = true ->
  (connection (step Number_toString st ev) = connection st
   \/ connection (step Number_toString st ev) = connection (unmounted st))
  /\ (connection st <> Some OPEN -> frames (step Number_toString st ev) = frames st).
Proof.
  intros T. unfold step. destruct ev as [| |rs|value| |data]; try discriminate T; simpl.
  - split; [left|]; reflexivity.
  - unfold connection at 1 2, frames.
    destruct (blank (input st)) eqn:B.
    + rewrite (sendMessage_blank st B). split; [left|]; reflexivity.
    + destruct (websocket st) as [ws|] eqn:W.
      * rewrite (sendMessage_socket st ws B W). unfold connection. rewrite W. simpl.
        destruct (readyState ws) eqn:R; simpl; rewrite ?W, ?R; simpl;
          (split; [left; rewrite ?R; reflexivity|]); try reflexivity.
        intros N. exfalso. apply N. reflexivity.
      * rewrite (sendMessage_no_socket st B W). simpl. rewrite W.
        split; [left|]; reflexivity.
  - destruct (onmessage_outcome Number_toString data st)
      as [H|[[text H]|(parsed & value & e & _ & _ & _ & _ & H)]]; rewrite H.
    + split; [left|]; reflexivity.
    + split; [left|]; reflexivity.
    + split; [right; reflexivity|]. intros _. apply unmounted_frames.
Qed.



(** ** The frames on the wire *)

Lemma step_client_frames (Number_toString : JSONNumber -> jsstring)
  (ev : Event) (st : AppState) :
  Forall client_frame (frames st) ->
  Forall client_frame (frames (step Number_toString st ev)).
Proof.
  intros F. unfold step. destruct ev as [| |rs|value| |data]; cbn [dispatch].
  - constructor.
  - cbn [snd]. rewrite unmounted_frames. exact F.
  - unfold frames in *. destruct (websocket st) as [ws|] eqn:W; simpl; rewrite ?W; exact F.
  - exact F.
  - unfold frames in *. destruct (blank (input st)) eqn:B.
    + rewrite (sendMessage_blank st B). exact F.
    + destruct (websocket st) as [ws|] eqn:W.
      * rewrite (sendMessage_socket st ws B W).
        destruct (readyState ws); simpl; rewrite ?W; try exact F.
        apply Forall_app. split; [exact F|].
        constructor; [|constructor]. exists (input st). split; [exact B | reflexivity].
      * rewrite (sendMessage_no_socket st B W). simpl. rewrite W. exact F.
  - destruct (onmessage_outcome Number_toString data st)
      as [H|[[text H]|(parsed & value & e & _ & _ & _ & _ & H)]]; rewrite H;
      cbn [snd]; try exact F.
    rewrite unmounted_frames. exact F.
Qed.

(** X4. Whatever happens to the component, it never puts on the wire
    anything but frames of the form [JSON.stringify({ input })] for a
    draft that is not blank: if the frames sent so far are of that form,
    so are the frames sent after any run of events. *)
Theorem wire_holds_client_frames (Number_toString : JSONNumber -> jsstring)
  (evs : list Event) (st : AppState) :
  Forall client_frame (frames st) ->
  Forall client_frame (frames (run Number_toString st evs)).
Proof.
  revert st. induction evs as [|ev evs IH]; intros st F; [exact F|].
  change (run Number_toString st (ev :: evs))
    with (run Number_toString (step Number_toString st ev) evs).
  apply IH. apply step_client_frames. exact F.
Qed.

Lemma wire_holds_client_frames_witness :
  Forall client_frame (frames initial_state)
  /\ frames (run unformatted initial_state
               [Mount; Change (str "early"); Submit; Transport OPEN; Submit;
                Change (str "  "); Submit; Message (str "not-json")])
     = [qstr "{'input':'early'}"]
  /\ Forall client_frame
       (frames (run unformatted initial_state
                  [Mount; Change (str "early"); Submit; Transport OPEN; Submit;
                   Change (str "  "); Submit; Message (str "not-json")])).
Proof.
  assert (F : Forall client_frame (frames initial_state)) by constructor.
  split; [exact F|]. split; [reflexivity|].
  exact (wire_holds_client_frames unformatted
           [Mount; Change (str "early"); Submit; Transport OPEN; Submit;
            Change (str "  "); Submit; Message (str "not-json")]
           initial_state F).
Defined.

(** X5. A frame carries its draft faithfully: the frame built from a
    draft parses back to the object whose only member is [input] with that
    draft, so two drafts that differ never give the same frame. *)
Theorem frames_are_faithful (draft other : jsstring) :
  well_formed draft -> well_formed other ->
  JSON_parse (JSON_stringify_input draft)
    = Normal (JObject [(str "input", JString draft)])
  /\ (JSON_stringify_input draft = JSON_stringify_input other -> draft = other).
Proof.
  intros Wd Wo. split; [exact (parse_stringify_input draft Wd)|].
  intros E.
  pose proof (parse_stringify_input draft Wd) as Pd.
  pose proof (parse_stringify_input other Wo) as Po.
  rewrite E, Po in Pd. injection Pd as Pd. symmetry. exact Pd.
Qed.

Lemma frames_are_faithful_witness :
  well_formed (qstr "say 'hi'") /\ well_formed (str "say hi")
  /\ JSON_parse (JSON_stringify_input (qstr "say 'hi'"))
     = Normal (JObject [(str "input", JString (qstr "say 'hi'"))])
  /\ (JSON_stringify_input (qstr "say 'hi'") = JSON_stringify_input (str "say hi")
      -> qstr "say 'hi'" = str "say hi").
Proof.
  assert (W1 : well_formed (qstr "say 'hi'")).
  { unfold well_formed. repeat constructor. }
  assert (W2 : well_formed (str "say hi")).
  { unfold well_formed. repeat constructor. }
  split; [exact W1|]. split; [exact W2|].
  exact (frames_are_faithful (qstr "say 'hi'") (str "say hi") W1 W2).
Defined.

(** ** The view *)

(** X6. The transcript keeps the order of the conversation: any
    interleaving of user sends and received answers on an open socket
    leaves the transcript it started from, every message of it in its
    place, followed by the turns of the operations, one each and in the
    order the operations were applied; the socket is still open
    afterwards. *)
Theorem transcript_keeps_order (Number_toString : JSONNumber -> jsstring)
  (ops : list Operation) (turns : list jsstring) (st : AppState) :
  connection st = Some OPEN ->
  Forall2 records ops turns ->
  messages (run Number_toString st (flat_map events_of ops)) = messages st ++ turns
  /\ connection (run Number_toString st (flat_map events_of ops)) = Some OPEN.
Proof.
  intros C F. revert st C.
  induction F as [|op turn ops turns R F IH]; intros st C.
  - simpl. rewrite app_nil_r. split; [reflexivity | exact C].
  - cbn [flat_map]. rewrite run_app.
    destruct (operation_records Number_toString op turn st C R) as [M1 C1].
    destruct (IH _ C1) as [M2 C2].
    rewrite M2, M1, <- app_assoc. split; [reflexivity | exact C2].
Qed.

(** The round trip of a question and its answer. *)
Lemma transcript_keeps_order_witness :
  connection (socket_state OPEN []) = Some OPEN
  /\ Forall2 records
       [UserSend (str "hello"); Receive (qstr "{'answer':'hi there'}")]
       [str "You: hello"; str "hi there"]
  /\ messages (run unformatted (socket_state OPEN [])
                 [Change (str "hello"); Submit; Message (qstr "{'answer':'hi there'}")])
     = [str "You: hello"; str "hi there"].
Proof.
  assert (F : Forall2 records
                [UserSend (str "hello"); Receive (qstr "{'answer':'hi there'}")]
                [str "You: hello"; str "hi there"]).
  { constructor.
    - exact (records_send (str "hello") eq_refl).
    - constructor; [|constructor].
      refine (records_answer (qstr "{'answer':'hi there'}")
                (JObject [(str "answer", JString (str "hi there"))])
                (str "hi there") eq_refl eq_refl _).
      discriminate. }
  split; [reflexivity|]. split; [exact F|].
  exact (proj1 (transcript_keeps_order unformatted
                  [UserSend (str "hello"); Receive (qstr "{'answer':'hi there'}")]
                  [str "You: hello"; str "hi there"] (socket_state OPEN [])
                  eq_refl F)).
Defined.

Lemma key_user (marked sanitize : jsstring -> jsstring) (msg : jsstring) :
  startsWith msg (str "You: ") = true ->
  key (renderMessageAsMarkdown marked sanitize msg)
  = str "user-<b>You:</b><br />" ++ skipn 5 msg.
Proof.
  intros S. unfold renderMessageAsMarkdown. cbn [key]. rewrite S. reflexivity.
Qed.

Lemma key_server (marked sanitize : jsstring -> jsstring) (msg : jsstring) :
  startsWith msg (str "You: ") = false ->
  key (renderMessageAsMarkdown marked sanitize msg)
  = str "server-<b>Nydas:</b><br />" ++ msg.
Proof.
  intros S. unfold renderMessageAsMarkdown. cbn [key]. rewrite S. reflexivity.
Qed.

Lemma key_injective (marked sanitize : jsstring -> jsstring) (a b : jsstring) :
  key (renderMessageAsMarkdown marked sanitize a)
  = key (renderMessageAsMarkdown marked sanitize b) ->
  a = b.
Proof.
  intros E.
  destruct (startsWith a (str "You: ")) eqn:Sa;
    destruct (startsWith b (str "You: ")) eqn:Sb.
  - rewrite (key_user marked sanitize a Sa), (key_user marked sanitize b Sb) in E.
    apply app_inv_head in E.
    rewrite (startsWith_split a (str "You: ") Sa),
            (startsWith_split b (str "You: ") Sb).
    change (length (str "You: ")) with 5. rewrite E. reflexivity.
  - rewrite (key_user marked sanitize a Sa), (key_server marked sanitize b Sb) in E.
    discriminate E.
  - rewrite (key_server marked sanitize a Sa), (key_user marked sanitize b Sb) in E.
    discriminate E.
  - rewrite (key_server marked sanitize a Sa), (key_server marked sanitize b Sb) in E.
    apply app_inv_head in E. exact E.
Qed.

(** X7. Two messages get the same React key exactly when they are the same
    string, so the children displayed have keys that are all different
    exactly when no message occurs twice in the transcript: a message that
    is stored a second time is rendered under a key already in use. *)
Theorem keys_repeat_with_messages (marked sanitize : jsstring -> jsstring) :
  (forall a b,
     key (renderMessageAsMarkdown marked sanitize a)
     = key (renderMessageAsMarkdown marked sanitize b) <-> a = b)
  /\ (forall st,
        NoDup (map key (displayed marked sanitize st)) <-> NoDup (messages st)).
Proof.
  split.
  - intros a b. split; [apply key_injective | intros E; rewrite E; reflexivity].
  - intros st. rewrite displayed_spec, <- map_rev, map_map. split.
    + intros N. apply NoDup_map_inv in N. apply NoDup_rev in N.
      rewrite rev_involutive in N. exact N.
    + intros N. apply NoDup_rev in N.
      apply NoDup_map_NoDup_ForallPairs; [|exact N].
      intros a b _ _. apply key_injective.
Qed.

Lemma keys_repeat_with_messages_witness :
  messages
    (run unformatted (socket_state OPEN [])
       [Change (str "hi"); Submit; Change (str "hi"); Submit])
  = [str "You: hi"; str "You: hi"]
  /\ ~ NoDup (map key
               (displayed paragraph escape_markup
                  (run unformatted (socket_state OPEN [])
                     [Change (str "hi"); Submit; Change (str "hi"); Submit]))).
Proof.
  split; [reflexivity|].
  intros N.
  apply (proj2 (keys_repeat_with_messages paragraph escape_markup)) in N.
  change (NoDup [str "You: hi"; str "You: hi"]) in N.
  inversion N as [|? ? NotIn _]. apply NotIn. left. reflexivity.
Defined.

(** ** The life cycle *)

Lemma sendMessage_silent (st : AppState) :
  connection st <> Some OPEN -> frames (snd (sendMessage st)) = frames st.
Proof.
  intros N. unfold connection, frames in *.
  destruct (blank (input st)) eqn:B.
  - rewrite (sendMessage_blank st B). reflexivity.
  - destruct (websocket st) as [ws|] eqn:W.
    + rewrite (sendMessage_socket st ws B W). simpl in N.
      destruct (readyState ws); simpl; rewrite ?W; try reflexivity.
      exfalso. apply N. reflexivity.
    + rewrite (sendMessage_no_socket st B W). simpl. rewrite W. reflexivity.
Qed.

(** X8. The cleanup of the mount effect closes the socket and nothing
    else: it does not throw, it leaves the draft, the transcript and the
    frames sent as they are, the socket it leaves is neither open nor
    connecting, running it a second time changes nothing, and a submit
    after it puts no frame on the wire. *)
Theorem cleanup_closes_socket (st : AppState) :
  fst (cleanup st) = Normal tt
  /\ input (snd (cleanup st)) = input st
  /\ messages (snd (cleanup st)) = messages st
  /\ frames (snd (cleanup st)) = frames st
  /\ connection (snd (cleanup st)) <> Some OPEN
  /\ connection (snd (cleanup st)) <> Some CONNECTING
  /\ snd (cleanup (snd (cleanup st))) = snd (cleanup st)
  /\ frames (snd (sendMessage (snd (cleanup st)))) = frames st.
Proof.
  assert (H : fst (cleanup st) = Normal tt
              /\ input (snd (cleanup st)) = input st
              /\ messages (snd (cleanup st)) = messages st
              /\ frames (snd (cleanup st)) = frames st
              /\ connection (snd (cleanup st)) <> Some OPEN
              /\ connection (snd (cleanup st)) <> Some CONNECTING
              /\ snd (cleanup (snd (cleanup st))) = snd (cleanup st)).
  { unfold cleanup, connection, frames.
    destruct st as [draft transcript [[rs sent]|]]; simpl;
      [destruct rs; simpl|]; repeat split; discriminate. }
  destruct H as (H1 & H2 & H3 & H4 & H5 & H6 & H7).
  repeat (split; [assumption|]).
  rewrite (sendMessage_silent (snd (cleanup st)) H5). exact H4.
Qed.

(** X9. A draft submitted before the socket has opened is not sent and is
    not lost: after the mount effect a submit throws an InvalidStateError
    and leaves the draft in the text field and the transcript as it was;
    once the transport has opened the socket the same submit puts the one
    frame of the draft on the wire, stores the turn and clears the field. *)
Theorem submit_waits_for_open (Number_toString : JSONNumber -> jsstring)
  (draft : jsstring) (st : AppState) :
  blank draft = false ->
  fst (sendMessage (run Number_toString st [Mount; Change draft]))
    = Throw InvalidStateError
  /\ run Number_toString st [Mount; Change draft; Submit]
     = {| input := draft; messages := messages st; websocket := Some WebSocket_new |}
  /\ run Number_toString st [Mount; Change draft; Submit; Transport OPEN; Submit]
     = {| input := [];
          messages := messages st ++ [str "You: " ++ draft];
          websocket :=
            Some {| readyState := OPEN; wire := [JSON_stringify_input draft] |} |}.
Proof.
  intros B.
  set (connecting :=
         {| input := draft; messages := messages st; websocket := Some WebSocket_new |}).
  assert (S1 : sendMessage connecting = (Throw InvalidStateError, connecting)).
  { exact (sendMessage_socket connecting WebSocket_new B eq_refl). }
  change (run Number_toString st [Mount; Change draft]) with connecting.
  change (run Number_toString st [Mount; Change draft; Submit])
    with (snd (sendMessage connecting)).
  change (run Number_toString st [Mount; Change draft; Submit; Transport OPEN; Submit])
    with (snd (sendMessage
                 (step Number_toString (snd (sendMessage connecting)) (Transport OPEN)))).
  rewrite S1. split; [reflexivity|]. split; [reflexivity|].
  change (step Number_toString (snd (Throw InvalidStateError, connecting)) (Transport OPEN))
    with {| input := draft; messages := messages st;
            websocket := Some {| readyState := OPEN; wire := [] |} |}.
  rewrite (sendMessage_socket
             {| input := draft; messages := messages st;
                websocket := Some {| readyState := OPEN; wire := [] |} |}
             {| readyState := OPEN; wire := [] |} B eq_refl).
  reflexivity.
Qed.

Lemma submit_waits_for_open_witness :
  blank (str "hello") = false
  /\ run unformatted initial_state [Mount; Change (str "hello"); Submit]
     = {| input := str "hello"; messages := []; websocket := Some WebSocket_new |}
  /\ frames (run unformatted initial_state
               [Mount; Change (str "hello"); Submit; Transport OPEN; Submit])
     = [qstr "{'input':'hello'}"].
Proof.
  destruct (submit_waits_for_open unformatted (str "hello") initial_state eq_refl)
    as (_ & R1 & R2).
  split; [reflexivity|]. split; [exact R1|]. rewrite R2. reflexivity.
Defined.

(** ** Submitting twice *)

(** X11. Submitting twice in a row sends once: the second submit finds
    the state the first one left (the field cleared when the first went
    through, everything untouched when it did not) and changes nothing; in
    particular it puts no second frame on the wire and stores no second
    turn. *)
Theorem double_submit_sends_once (st : AppState) :
  snd (sendMessage (snd (sendMessage st))) = snd (sendMessage st).
Proof.
  assert (Cleared : forall transcript socket,
            sendMessage {| input := []; messages := transcript; websocket := socket |}
            = (Normal tt, {| input := []; messages := transcript; websocket := socket |})).
  { intros transcript socket. apply sendMessage_blank. reflexivity. }
  destruct (blank (input st)) eqn:B.
  - rewrite (sendMessage_blank st B). simpl. rewrite (sendMessage_blank st B). reflexivity.
  - destruct (websocket st) as [ws|] eqn:W.
    + rewrite (sendMessage_socket st ws B W).
      destruct (readyState ws) eqn:R; cbn [snd]; try (rewrite Cleared; reflexivity).
      rewrite (sendMessage_socket st ws B W), R. reflexivity.
    + rewrite (sendMessage_no_socket st B W). simpl.
      rewrite (sendMessage_no_socket st B W). reflexivity.
Qed.

(** ** Answer frames, however they are spaced *)

Lemma skip_ws_space (w rest : jsstring) :
  json_space w = true -> skip_ws (w ++ rest) = skip_ws rest.
Proof.
  induction w as [|c w IH]; intros S; [reflexivity|].
  simpl in S. apply andb_true_iff in S. destruct S as [Sc Sw].
  simpl. rewrite Sc. exact (IH Sw).
Qed.

Lemma skip_ws_all_space (w : jsstring) : json_space w = true -> skip_ws w = [].
Proof.
  intros S. rewrite <- (app_nil_r w). rewrite (skip_ws_space w [] S). reflexivity.
Qed.

Lemma parse_spaced_member (fuel : nat) (w1 w2 w3 w4 name value rest : jsstring) :
  json_space w1 = true -> json_space w2 = true ->
  json_space w3 = true -> json_space w4 = true ->
  well_formed name -> well_formed value ->
  parse_value (S (S (S fuel)))
    (ch "{" :: w1 ++ QuoteJSONString name ++ w2 ++ ch ":" :: w3
       ++ QuoteJSONString value ++ w4 ++ ch "}" :: rest)
  = Parsed (JObject [(name, JString value)]) rest.
Proof.
  intros S1 S2 S3 S4 Wn Wv. unfold QuoteJSONString.
  cbn [parse_value].
  change (ch "{" =? ch "{")%N with true. cbv iota.
  rewrite (skip_ws_space w1 _ S1). cbn [app].
  rewrite skip_ws_skips_nothing by reflexivity.
  change (QUOTATION_MARK =? ch "}")%N with false. cbv iota.
  cbn [parse_members].
  change (QUOTATION_MARK =? QUOTATION_MARK)%N with true. cbv iota.
  rewrite <- !app_assoc. cbn [app].
  rewrite (parse_quote_code_points name Wn).
  rewrite (skip_ws_space w2 _ S2).
  rewrite skip_ws_skips_nothing by reflexivity.
  change (ch ":" =? ch ":")%N with true. cbv iota.
  rewrite (skip_ws_space w3 _ S3).
  rewrite skip_ws_skips_nothing by reflexivity.
  cbn [parse_value].
  change (QUOTATION_MARK =? ch "{")%N with false.
  change (QUOTATION_MARK =? ch "[")%N with false.
  change (QUOTATION_MARK =? QUOTATION_MARK)%N with true. cbv iota.
  rewrite (parse_quote_code_points value Wv).
  cbn [parsed_map].
  rewrite (skip_ws_space w4 _ S4).
  rewrite skip_ws_skips_nothing by reflexivity.
  change (ch "}" =? ch ",")%N with false.
  change (ch "}" =? ch "}")%N with true. cbv iota.
  reflexivity.
Qed.

Lemma JSON_parse_spaced_member (w0 w1 w2 w3 w4 w5 name value : jsstring) :
  json_space w0 = true -> json_space w1 = true -> json_space w2 = true ->
  json_space w3 = true -> json_space w4 = true -> json_space w5 = true ->
  well_formed name -> well_formed value ->
  JSON_parse (spaced_member w0 w1 w2 w3 w4 w5 name value)
  = Normal (JObject [(name, JString value)]).
Proof.
  intros S0 S1 S2 S3 S4 S5 Wn Wv.
  unfold JSON_parse, parse_text, parse_fuel.
  assert (F : exists k, 2 * length (spaced_member w0 w1 w2 w3 w4 w5 name value) + 1
                        = S (S (S k))).
  { exists (2 * length (spaced_member w0 w1 w2 w3 w4 w5 name value) - 2).
    unfold spaced_member. rewrite length_app. simpl length. lia. }
  destruct F as [k F]. rewrite F. unfold spaced_member.
  rewrite (skip_ws_space w0 _ S0).
  rewrite skip_ws_skips_nothing by reflexivity.
  rewrite (parse_spaced_member k w1 w2 w3 w4 name value w5 S1 S2 S3 S4 Wn Wv).
  rewrite (skip_ws_all_space w5 S5). reflexivity.
Qed.

(** X12. An answer survives the wire whole: for a frame [{ "answer": text }]
    whose text is quoted the way [JSON.stringify] quotes it, with any white
    space between its tokens, the handler stores exactly the text of the
    answer, quotes, backslashes, line breaks and markup in it included,
    provided the text is not empty; it returns without an error and leaves
    the draft and the socket alone. *)
Theorem spaced_answer_is_stored (Number_toString : JSONNumber -> jsstring)
  (w0 w1 w2 w3 w4 w5 text : jsstring) (st : AppState) :
  json_space w0 = true -> json_space w1 = true -> json_space w2 = true ->
  json_space w3 = true -> json_space w4 = true -> json_space w5 = true ->
  well_formed text -> text <> [] ->
  onmessage Number_toString (spaced_member w0 w1 w2 w3 w4 w5 (str "answer") text) st
  = (Normal tt,
     {| input := input st; messages := messages st ++ [text];
        websocket := websocket st |}).
Proof.
  intros S0 S1 S2 S3 S4 S5 W Ne.
  apply (onmessage_string_answer Number_toString _
           (JObject [(str "answer", JString text)])).
  - apply JSON_parse_spaced_member; try assumption.
    unfold well_formed. repeat constructor.
  - reflexivity.
  - exact Ne.
Qed.

Lemma spaced_answer_is_stored_witness :
  spaced_member [] [] [] (str " ") [] (str " ") (str "answer") (qstr "say 'hi' <b>")
  = ch "{" :: QuoteJSONString (str "answer") ++ str ": "
      ++ QuoteJSONString (qstr "say 'hi' <b>") ++ str "} "
  /\ messages
       (snd (onmessage unformatted
               (spaced_member [] [] [] (str " ") [] (str " ") (str "answer")
                  (qstr "say 'hi' <b>"))
               (socket_state OPEN (str "draft"))))
     = [qstr "say 'hi' <b>"]
  /\ input
       (snd (onmessage unformatted
               (spaced_member [] [] [] (str " ") [] (str " ") (str "answer")
                  (qstr "say 'hi' <b>"))
               (socket_state OPEN (str "draft"))))
     = str "draft".
Proof.
  split; [reflexivity|].
  assert (W : well_formed (qstr "say 'hi' <b>")).
  { unfold well_formed. repeat constructor. }
  assert (Ne : qstr "say 'hi' <b>" <> []) by discriminate.
  rewrite (spaced_answer_is_stored unformatted [] [] [] (str " ") [] (str " ")
             (qstr "say 'hi' <b>") (socket_state OPEN (str "draft"))
             eq_refl eq_refl eq_refl eq_refl eq_refl eq_refl W Ne).
  split; reflexivity.
Defined.
